(** * kform-dev/plugin: host-side Client and guest-side GRPCServer

    A shallow embedding of [client.go] and [grpc_server.go].  Go strings are
    byte strings, modelled by [string] (a list of 8-bit [ascii]); [int] values
    are [Z]; [uint] values are [N]; a Go map is a [gmap] together with the
    order in which a [range] statement happens to visit it.  Functions of the
    Go standard library that the code calls on strings ([strings.TrimSpace],
    [strings.SplitN], [strconv.Atoi], [base64.RawStdEncoding.DecodeString])
    are written out over bytes; what leaves the process is an answer given
    by the [Runner] record (the subprocess and its timing) or by the [World]
    record (the file system, the resolver, the X.509 parser, the dialer).
    Goroutines are not run: starting one is an event, and the [select]
    statements take their outcome from the [Runner]. *)

From Stdlib Require Import ZArith NArith Ascii String List Bool Lia.
From Stdlib Require Import DecimalString.
From stdpp Require Import base option list gmap strings.

Import ListNotations.
Local Open Scope string_scope.
Local Open Scope list_scope.

(* ===================================================================== *)
(** ** Go standard library functions on strings *)
(* ===================================================================== *)

Module GoStrings.

(** [unicode.IsSpace] for the ASCII range: tab, LF, VT, FF, CR, space. *)
Definition isAsciiSpace (c : ascii) : bool :=
  let n := N_of_ascii c in
  ((9 <=? n) && (n <=? 13))%N || (n =? 32)%N.

(** The UTF-8 encodings of the white-space runes above U+007F:
    U+0085, U+00A0 (two bytes) and U+1680, U+2000..U+200A, U+2028, U+2029,
    U+202F, U+205F, U+3000 (three bytes). *)
Definition isSpace2 (a b : ascii) : bool :=
  (N_of_ascii a =? 194)%N &&
  ((N_of_ascii b =? 133)%N || (N_of_ascii b =? 160)%N).

Definition isSpace3 (a b c : ascii) : bool :=
  let x := N_of_ascii a in
  let y := N_of_ascii b in
  let z := N_of_ascii c in
  ((x =? 225) && (y =? 154) && (z =? 128))%N
  || ((x =? 226) && (y =? 128)
      && (((128 <=? z) && (z <=? 138)) || (z =? 168) || (z =? 169) || (z =? 175)))%N
  || ((x =? 226) && (y =? 129) && (z =? 159))%N
  || ((x =? 227) && (y =? 128) && (z =? 128))%N.

(** Drop leading white-space runes. *)
Fixpoint trimLeft (s : list ascii) : list ascii :=
  match s with
  | [] => []
  | a :: r1 =>
      if isAsciiSpace a then trimLeft r1
      else match r1 with
           | b :: r2 =>
               if isSpace2 a b then trimLeft r2
               else match r2 with
                    | c :: r3 => if isSpace3 a b c then trimLeft r3 else s
                    | [] => s
                    end
           | [] => s
           end
  end.

(** Drop trailing white-space runes; the argument is the string reversed,
    so the bytes of a rune are met last byte first. *)
Fixpoint trimLeftRev (s : list ascii) : list ascii :=
  match s with
  | [] => []
  | a :: r1 =>
      if isAsciiSpace a then trimLeftRev r1
      else match r1 with
           | b :: r2 =>
               if isSpace2 b a then trimLeftRev r2
               else match r2 with
                    | c :: r3 => if isSpace3 c b a then trimLeftRev r3 else s
                    | [] => s
                    end
           | [] => s
           end
  end.

(** [strings.TrimSpace]: all leading and trailing white space removed. *)
Definition TrimSpace (s : string) : string :=
  string_of_list_ascii
    (rev (trimLeftRev (rev (trimLeft (list_ascii_of_string s))))).

(** [strings.Cut] for a one-byte separator: the text before and after the
    first occurrence of [sep]. *)
Fixpoint cut (sep : ascii) (s : string) : option (string * string) :=
  match s with
  | EmptyString => None
  | String c r =>
      if Ascii.eqb c sep then Some (EmptyString, r)
      else match cut sep r with
           | Some (a, b) => Some (String c a, b)
           | None => None
           end
  end.

(** [strings.SplitN(s, sep, n)] for a one-byte separator and [n >= 0]:
    at most [n] substrings, the last one being the unsplit remainder;
    [n = 0] gives nil. *)
Fixpoint SplitN (s : string) (sep : ascii) (n : nat) : list string :=
  match n with
  | O => []
  | S O => [s]
  | S n' =>
      match cut sep s with
      | Some (a, b) => a :: SplitN b sep n'
      | None => [s]
      end
  end.

(** [strings.HasPrefix]. *)
Definition HasPrefix (s p : string) : bool := String.prefix p s.

(** [strings.Join]. *)
Fixpoint Join (l : list string) (sep : string) : string :=
  match l with
  | [] => EmptyString
  | [x] => x
  | x :: r => x +:+ sep +:+ Join r sep
  end.

Definition isDigit (c : ascii) : bool :=
  let n := N_of_ascii c in ((48 <=? n) && (n <=? 57))%N.

(** Value of a string of decimal digits, [None] when a byte is not a digit. *)
Fixpoint digitsValue (acc : Z) (s : string) : option Z :=
  match s with
  | EmptyString => Some acc
  | String c r =>
      if isDigit c
      then digitsValue (10 * acc + (Z.of_N (N_of_ascii c) - 48)) r
      else None
  end.

Inductive NumError := ErrSyntax | ErrRange.

Definition minInt : Z := - 2 ^ 63.
Definition maxInt : Z := 2 ^ 63 - 1.

(** [strconv.Atoi] on a 64-bit platform: an optional sign followed by one
    or more decimal digits; out of the [int] range is a range error. *)
Definition Atoi (s : string) : NumError + Z :=
  let '(neg, body) :=
    match s with
    | String "-" r => (true, r)
    | String "+" r => (false, r)
    | _ => (false, s)
    end in
  match body with
  | EmptyString => inl ErrSyntax
  | _ =>
      match digitsValue 0 body with
      | None => inl ErrSyntax
      | Some v =>
          let v' := if neg then (- v)%Z else v in
          if ((minInt <=? v') && (v' <=? maxInt))%Z then inr v' else inl ErrRange
      end
  end.

(** [strconv.Itoa], and the verb [%d] of [fmt] on an [int]. *)
Definition Itoa (z : Z) : string := NilZero.string_of_int (Z.to_int z).

(** The verb [%d] of [fmt] on a [uint]. *)
Definition fmtUint (n : N) : string := NilZero.string_of_uint (N.to_uint n).

(** The verb [%d] of [fmt] on a [[]int]: the elements in brackets,
    separated by one space. *)
Definition fmtInts (l : list Z) : string :=
  "[" +:+ Join (map Itoa l) " " +:+ "]".

End GoStrings.

Import GoStrings.

(* ===================================================================== *)
(** ** [encoding/base64] and [crypto/subtle] *)
(* ===================================================================== *)

(** A Go [[]byte]. *)
Abbreviation bytes := (list ascii).

Module Base64.

(** The standard alphabet: [A-Z], [a-z], [0-9], [+], [/]. *)
Definition decodeMap (c : ascii) : option N :=
  let n := N_of_ascii c in
  if ((65 <=? n) && (n <=? 90))%N then Some (n - 65)%N
  else if ((97 <=? n) && (n <=? 122))%N then Some (n - 71)%N
  else if ((48 <=? n) && (n <=? 57))%N then Some (n + 4)%N
  else if (n =? 43)%N then Some 62%N
  else if (n =? 47)%N then Some 63%N
  else None.

Definition isNewline (c : ascii) : bool :=
  let n := N_of_ascii c in ((n =? 10) || (n =? 13))%N.

Definition isPad (c : ascii) : bool := (N_of_ascii c =? 61)%N.

Definition out1 (a b : N) : ascii :=
  ascii_of_N (N.lor (N.shiftl a 2) (N.shiftr b 4) mod 256).
Definition out2 (b c : N) : ascii :=
  ascii_of_N (N.lor (N.shiftl b 4) (N.shiftr c 2) mod 256).
Definition out3 (c d : N) : ascii :=
  ascii_of_N (N.lor (N.shiftl c 6) d mod 256).

(** The quanta of an unpadded encoding, new lines already skipped: four
    characters give three bytes; a last group of two or three characters
    gives one or two bytes; a last group of one character is corrupt. *)
Fixpoint decodeRaw (l : list ascii) : option bytes :=
  match l with
  | [] => Some []
  | [_] => None
  | [a; b] =>
      match decodeMap a, decodeMap b with
      | Some x, Some y => Some [out1 x y]
      | _, _ => None
      end
  | [a; b; c] =>
      match decodeMap a, decodeMap b, decodeMap c with
      | Some x, Some y, Some z => Some [out1 x y; out2 y z]
      | _, _, _ => None
      end
  | a :: b :: c :: d :: r =>
      match decodeMap a, decodeMap b, decodeMap c, decodeMap d with
      | Some x, Some y, Some z, Some t =>
          match decodeRaw r with
          | Some o => Some (out1 x y :: out2 y z :: out3 z t :: o)
          | None => None
          end
      | _, _, _, _ => None
      end
  end.

(** The quanta of a padded encoding: every group has four characters and
    only the last one may end in [=] or [==]. *)
Fixpoint decodePadded (l : list ascii) : option bytes :=
  match l with
  | [] => Some []
  | a :: b :: c :: d :: r =>
      match decodeMap a, decodeMap b with
      | Some x, Some y =>
          if isPad c then
            if isPad d then match r with [] => Some [out1 x y] | _ => None end
            else None
          else
            match decodeMap c with
            | Some z =>
                if isPad d then
                  match r with [] => Some [out1 x y; out2 y z] | _ => None end
                else
                  match decodeMap d with
                  | Some t =>
                      match decodePadded r with
                      | Some o => Some (out1 x y :: out2 y z :: out3 z t :: o)
                      | None => None
                      end
                  | None => None
                  end
            | None => None
            end
      | _, _ => None
      end
  | _ => None
  end.

Definition skipNewlines (s : string) : list ascii :=
  List.filter (fun c => negb (isNewline c)) (list_ascii_of_string s).

(** [base64.RawStdEncoding.DecodeString]; [None] is a [CorruptInputError]. *)
Definition RawStdEncoding_DecodeString (s : string) : option bytes :=
  decodeRaw (skipNewlines s).

(** [base64.StdEncoding.DecodeString]. *)
Definition StdEncoding_DecodeString (s : string) : option bytes :=
  decodePadded (skipNewlines s).

End Base64.

Module Subtle.

(** [subtle.ConstantTimeCompare]: 1 when the two slices have equal
    contents, 0 otherwise, and 0 at once when the lengths differ. *)
Fixpoint orXor (v : N) (x y : bytes) : N :=
  match x, y with
  | a :: x', b :: y' => orXor (N.lor v (N.lxor (N_of_ascii a) (N_of_ascii b))) x' y'
  | _, _ => v
  end.

Definition ConstantTimeCompare (x y : bytes) : Z :=
  if negb (length x =? length y)%nat then 0%Z
  else if (orXor 0 x y =? 0)%N then 1%Z else 0%Z.

End Subtle.

(* ===================================================================== *)
(** ** Errors and results *)
(* ===================================================================== *)

(** Go [error] values.  The sentinel errors of [client.go] are constants;
    an error built by [fmt.Errorf] or [errors.New] keeps its arguments; an
    error that comes from another package keeps its text. *)
Inductive Error : Type :=
| ErrProcessNotFound
| ErrChecksumsDoNotMatch              (* "checksums did not match" *)
| ErrSecureConfigNoChecksum           (* "no checksum provided" *)
| ErrSecureConfigNoHash               (* "no hash implementation provided" *)
| ErrSecureConfigAndReattach          (* "only one of Reattach or SecureConfig can be set" *)
| ErrExactlyOne                       (* "exactly one of Cmd, or Reattach, or RunnerFunc must be set" *)
| ErrVerifyingChecksum (e : Error)    (* "error verifying checksum: %s" *)
| ErrStartTimeout                     (* "timeout while waiting for plugin to start" *)
| ErrExitedBeforeConnect              (* "plugin exited before we could connect" *)
| ErrParsingProtocolVersion (v : string) (e : Error)
                                      (* "error parsing protocol version %q: %s" *)
| ErrIncompatibleAPI (server : Z) (clients : list Z)
                                      (* "incompatible API version with plugin. ..." *)
| ErrTCPAddress (e : Error)           (* "tcp address error: %s" *)
| ErrUnixAddress (e : Error)          (* "unix address error: %s" *)
| ErrUnknownAddressType (address : string)   (* "unknown address type: %s" *)
| ErrParsingServerCert (e : Error)    (* "error parsing server cert: %s" *)
| ErrAtoi (input : string) (k : NumError)    (* *strconv.NumError *)
| ErrCorruptInput                     (* base64.CorruptInputError *)
| ErrExternal (msg : string).         (* an error of another package, by its text *)

(** The text of the version-negotiation error, as [fmt.Errorf] builds it in
    [checkProtoVersion]. *)
Definition incompatibleAPIMessage (server : Z) (clients : list Z) : string :=
  "incompatible API version with plugin. Plugin version: " +:+ Itoa server
  +:+ ", Client versions: " +:+ fmtInts clients.

(** How a Go call ends: it returns, it returns an error, or it panics. *)
Inductive Res (A : Type) : Type :=
| Ok (a : A)
| Err (e : Error)
| Panic (msg : string).
Arguments Ok {A} a.
Arguments Err {A} e.
Arguments Panic {A} msg.

Definition indexOutOfRange : string := "runtime error: index out of range".
Definition nilDereference : string :=
  "runtime error: invalid memory address or nil pointer dereference".

(* ===================================================================== *)
(** ** Data model *)
(* ===================================================================== *)

(** [hash.Hash]: an implementation (with the state a fresh object starts
    in) and the state of this object.  [Write] never fails and writing in
    pieces is writing the concatenation. *)
Record HashImpl : Type := {
  hstate : Type;
  hinit : hstate;
  hwrite : hstate -> bytes -> hstate;
  hsum : hstate -> bytes;
  hwrite_nil : forall s, hwrite s [] = s;
  hwrite_app : forall s a b, hwrite (hwrite s a) b = hwrite s (a ++ b)
}.

Record Hash : Type := { impl : HashImpl; hcur : hstate impl }.

Definition Hash_New (i : HashImpl) : Hash := {| impl := i; hcur := hinit i |}.
Definition Hash_Write (h : Hash) (p : bytes) : Hash :=
  {| impl := impl h; hcur := hwrite (impl h) (hcur h) p |}.
Definition Hash_Sum (h : Hash) (b : bytes) : bytes := b ++ hsum (impl h) (hcur h).

(** The digest of a byte string under an implementation. *)
Definition digest (i : HashImpl) (data : bytes) : bytes :=
  hsum i (hwrite i (hinit i) data).

Record SecureConfig : Type := {
  Checksum : bytes;
  SecureHash : option Hash            (* field [Hash] *)
}.

(** What [os.Open] and the reads that follow give: the successive chunks
    [io.Copy] receives, then end of file or a read error. *)
Record FileStream : Type := {
  fchunks : list bytes;
  ferr : option string
}.

(** Modelled from the spec: [HandshakeConfig] is declared in another file of
    the package; the handshake constants are the cookie key/value and the legacy
    protocol version. *)
Record HandshakeConfig : Type := {
  ProtocolVersion : N;
  MagicCookieKey : string;
  MagicCookieValue : string
}.

(** A value of the interface [Plugin], by identity. *)
Inductive Plugin : Type := PluginHandle (id : nat).

(** [type PluginSet map[string]Plugin]. *)
Abbreviation PluginSet := (gmap string Plugin).

(** [exec.Cmd], the fields the client touches. *)
Record Cmd : Type := {
  Path : string;
  Env : list string;
  StdinIsHost : bool                  (* [cmd.Stdin = os.Stdin] *)
}.

Definition exec_Command (name : string) : Cmd :=
  {| Path := name; Env := []; StdinIsHost := false |}.

(** [net.Addr]. *)
Record Addr : Type := { Network : string; AddrString : string }.

Inductive X509Cert : Type := X509 (der : bytes).
Abbreviation CertPool := (list X509Cert).
Inductive Certificate : Type := KeyPair (certPEM keyPEM : string).

Inductive ClientAuthType := NoClientCert | RequireAndVerifyClientCert.

(** [tls.Config], the fields the client sets. *)
Record TLSConfig : Type := {
  Certificates : list Certificate;
  ClientAuth : ClientAuthType;
  MinVersion : N;
  ServerName : string;
  RootCAs : option CertPool;
  ClientCAs : option CertPool
}.

Definition VersionTLS12 : N := 771.

(** What the started process does first, as the [select] of [Start] sees
    it: nothing until the start timeout, exit, or a line on stdout (the
    empty line when stdout is closed without one). *)
Inductive FirstSignal : Type :=
| SigTimeout
| SigExited
| SigLine (line : string).

(** A [runner.Runner] with the answers its methods give. *)
Record Runner : Type := {
  rName : string;
  rID : string;
  rStart : option string;
  rFirst : FirstSignal;
  rPluginToHost : string -> string -> string + (string * string);
  rExitsWithin : Z -> bool;           (* after a clean close, within a duration *)
  rKill : option string
}.

(** [ClientProtocol], with the answer of [Close]. *)
Record ClientProtocol : Type := { cpID : nat; cpClose : option string }.

Record UnixSocketConfig : Type := {
  Group : string;
  TempDir : string;
  socketDir : string
}.

Definition UnixSocketConfig_zero : UnixSocketConfig :=
  {| Group := EmptyString; TempDir := EmptyString; socketDir := EmptyString |}.

Inductive Writer : Type := Discard | WriterHandle (id : nat).
Inductive Logger : Type := DefaultPluginLogger | LoggerHandle (id : nat).

(** [ReattachConfig]. *)
Record ReattachConfig : Type := {
  ReattachProtocolVersion : Z;
  ReattachAddr : option Addr;
  Pid : Z;
  Test : bool
}.

(** [ClientConfig].  A field that has the name of its own type in Go is
    prefixed with [Config] here; the byte sinks and the logger are kept by
    identity, and the dial options are left out. *)
Record ClientConfig : Type := {
  Handshake : HandshakeConfig;        (* the embedded [HandshakeConfig] *)
  VersionedPlugins : option (gmap Z PluginSet);
  ConfigCmd : option Cmd;             (* field [Cmd] *)
  Reattach : option ReattachConfig;
  RunnerFunc : option (Cmd -> string -> string + Runner);
  ConfigSecure : option SecureConfig; (* field [SecureConfig] *)
  ConfigTLS : option TLSConfig;       (* field [TLSConfig] *)
  Managed : bool;
  MinPort : N;
  MaxPort : N;
  StartTimeout : Z;
  Stderr : option Writer;
  SyncStdout : option Writer;
  SyncStderr : option Writer;
  ConfigLogger : option Logger;       (* field [Logger] *)
  AutoMTLS : bool;
  SkipHostEnv : bool;
  ConfigUnixSocket : option UnixSocketConfig   (* field [UnixSocketConfig] *)
}.

(** [Client].  The mutex is left out; a wait group is its counter. *)
Record Client : Type := {
  config : ClientConfig;
  exited : bool;
  address : option Addr;
  runner : option Runner;
  client : option ClientProtocol;
  logger : option Logger;
  doneCtx : bool;                     (* the completion context exists *)
  negotiatedVersion : Z;
  negotiatedPlugins : option PluginSet;
  clientWaitGroup : nat;
  stderrWaitGroup : nat;
  processKilled : bool;
  unixSocketCfg : UnixSocketConfig
}.

Definition Second : Z := 1000000000.
Definition Minute : Z := 60 * Second.

Inductive Level := LevelDebug | LevelInfo | LevelWarn | LevelError.

(** What a call does outside the [Client] value, in the order it happens. *)
Inductive Event : Type :=
| EvLog (l : Level) (msg : string)
| EvMkdirTemp (dir pattern : string)
| EvSetGroupWritable (dir group : string)
| EvRunnerStart (name : string) (cmd : Cmd)
| EvRunnerKill (name : string)
| EvGo (task : string)
| EvLoadServerCert (cert : string)
| EvDial
| EvClientClose (id : nat)
| EvAwaitExit (window : Z)
| EvWaitGroupWait
| EvRemoveAll (dir : string).

(** Everything outside the process.  A call that can fail answers with
    its value or with the text of its error. *)
Record World : Type := {
  osEnviron : list string;
  osOpen : string -> string + FileStream;
  generateCert : string + (string * string);
  X509KeyPair : string -> string -> string + Certificate;
  MkdirTemp : string -> string -> string + string;
  setGroupWritable : string -> string -> option string;
  NewCmdRunner : Cmd -> string + Runner;
  ResolveTCPAddr : string -> string + Addr;
  ResolveUnixAddr : string -> string + Addr;
  ParseCertificate : bytes -> string + X509Cert;
  newGRPCClient : Client -> string + ClientProtocol;
  (** the order in which the [range] of [Start] and the [range] of
      [checkProtoVersion] visit the map *)
  rangeStart : gmap Z PluginSet -> list (Z * PluginSet);
  rangeCheck : gmap Z PluginSet -> list (Z * PluginSet)
}.

(** A [range] visits every entry of the map once. *)
Definition rangeOK (f : gmap Z PluginSet -> list (Z * PluginSet)) : Prop :=
  forall m, f m ≡ₚ map_to_list m.

(* ===================================================================== *)
(** ** [SecureConfig.Check] *)
(* ===================================================================== *)

(** [io.Copy(s.Hash, file)]: every chunk read is written to the hash. *)
Definition ioCopy (h : Hash) (f : FileStream) : Hash * option string :=
  (fold_left Hash_Write (fchunks f) h, ferr f).

(** [Check] reads and writes the [Hash] object the [SecureConfig] points to,
    so it returns the configuration as the call leaves it. *)
Definition Check (w : World) (s : SecureConfig) (filePath : string)
  : (bool * option Error) * SecureConfig :=
  if (length (Checksum s) =? 0)%nat then ((false, Some ErrSecureConfigNoChecksum), s)
  else
    match SecureHash s with
    | None => ((false, Some ErrSecureConfigNoHash), s)
    | Some h =>
        match osOpen w filePath with
        | inl err => ((false, Some (ErrExternal err)), s)
        | inr file =>
            let '(h', err) := ioCopy h file in
            let s' := {| Checksum := Checksum s; SecureHash := Some h' |} in
            match err with
            | Some e => ((false, Some (ErrExternal e)), s')
            | None =>
                let sum := Hash_Sum h' [] in
                (((Subtle.ConstantTimeCompare sum (Checksum s) =? 1)%Z, None), s')
            end
        end
    end.

(* ===================================================================== *)
(** ** Field updates *)
(* ===================================================================== *)

Definition cfg_setPorts (lo hi : N) (g : ClientConfig) : ClientConfig :=
  {| Handshake := Handshake g; VersionedPlugins := VersionedPlugins g;
     ConfigCmd := ConfigCmd g; Reattach := Reattach g; RunnerFunc := RunnerFunc g;
     ConfigSecure := ConfigSecure g; ConfigTLS := ConfigTLS g; Managed := Managed g;
     MinPort := lo; MaxPort := hi; StartTimeout := StartTimeout g;
     Stderr := Stderr g; SyncStdout := SyncStdout g; SyncStderr := SyncStderr g;
     ConfigLogger := ConfigLogger g; AutoMTLS := AutoMTLS g;
     SkipHostEnv := SkipHostEnv g; ConfigUnixSocket := ConfigUnixSocket g |}.

Definition cfg_setStartTimeout (d : Z) (g : ClientConfig) : ClientConfig :=
  {| Handshake := Handshake g; VersionedPlugins := VersionedPlugins g;
     ConfigCmd := ConfigCmd g; Reattach := Reattach g; RunnerFunc := RunnerFunc g;
     ConfigSecure := ConfigSecure g; ConfigTLS := ConfigTLS g; Managed := Managed g;
     MinPort := MinPort g; MaxPort := MaxPort g; StartTimeout := d;
     Stderr := Stderr g; SyncStdout := SyncStdout g; SyncStderr := SyncStderr g;
     ConfigLogger := ConfigLogger g; AutoMTLS := AutoMTLS g;
     SkipHostEnv := SkipHostEnv g; ConfigUnixSocket := ConfigUnixSocket g |}.

Definition cfg_setSinks (e o s : option Writer) (l : option Logger) (g : ClientConfig)
  : ClientConfig :=
  {| Handshake := Handshake g; VersionedPlugins := VersionedPlugins g;
     ConfigCmd := ConfigCmd g; Reattach := Reattach g; RunnerFunc := RunnerFunc g;
     ConfigSecure := ConfigSecure g; ConfigTLS := ConfigTLS g; Managed := Managed g;
     MinPort := MinPort g; MaxPort := MaxPort g; StartTimeout := StartTimeout g;
     Stderr := e; SyncStdout := o; SyncStderr := s;
     ConfigLogger := l; AutoMTLS := AutoMTLS g;
     SkipHostEnv := SkipHostEnv g; ConfigUnixSocket := ConfigUnixSocket g |}.

Definition cfg_setVersionedPlugins (m : option (gmap Z PluginSet)) (g : ClientConfig)
  : ClientConfig :=
  {| Handshake := Handshake g; VersionedPlugins := m;
     ConfigCmd := ConfigCmd g; Reattach := Reattach g; RunnerFunc := RunnerFunc g;
     ConfigSecure := ConfigSecure g; ConfigTLS := ConfigTLS g; Managed := Managed g;
     MinPort := MinPort g; MaxPort := MaxPort g; StartTimeout := StartTimeout g;
     Stderr := Stderr g; SyncStdout := SyncStdout g; SyncStderr := SyncStderr g;
     ConfigLogger := ConfigLogger g; AutoMTLS := AutoMTLS g;
     SkipHostEnv := SkipHostEnv g; ConfigUnixSocket := ConfigUnixSocket g |}.

Definition cfg_setCmd (c : option Cmd) (g : ClientConfig) : ClientConfig :=
  {| Handshake := Handshake g; VersionedPlugins := VersionedPlugins g;
     ConfigCmd := c; Reattach := Reattach g; RunnerFunc := RunnerFunc g;
     ConfigSecure := ConfigSecure g; ConfigTLS := ConfigTLS g; Managed := Managed g;
     MinPort := MinPort g; MaxPort := MaxPort g; StartTimeout := StartTimeout g;
     Stderr := Stderr g; SyncStdout := SyncStdout g; SyncStderr := SyncStderr g;
     ConfigLogger := ConfigLogger g; AutoMTLS := AutoMTLS g;
     SkipHostEnv := SkipHostEnv g; ConfigUnixSocket := ConfigUnixSocket g |}.

Definition cfg_setSecure (s : option SecureConfig) (g : ClientConfig) : ClientConfig :=
  {| Handshake := Handshake g; VersionedPlugins := VersionedPlugins g;
     ConfigCmd := ConfigCmd g; Reattach := Reattach g; RunnerFunc := RunnerFunc g;
     ConfigSecure := s; ConfigTLS := ConfigTLS g; Managed := Managed g;
     MinPort := MinPort g; MaxPort := MaxPort g; StartTimeout := StartTimeout g;
     Stderr := Stderr g; SyncStdout := SyncStdout g; SyncStderr := SyncStderr g;
     ConfigLogger := ConfigLogger g; AutoMTLS := AutoMTLS g;
     SkipHostEnv := SkipHostEnv g; ConfigUnixSocket := ConfigUnixSocket g |}.

Definition cfg_setTLS (t : option TLSConfig) (g : ClientConfig) : ClientConfig :=
  {| Handshake := Handshake g; VersionedPlugins := VersionedPlugins g;
     ConfigCmd := ConfigCmd g; Reattach := Reattach g; RunnerFunc := RunnerFunc g;
     ConfigSecure := ConfigSecure g; ConfigTLS := t; Managed := Managed g;
     MinPort := MinPort g; MaxPort := MaxPort g; StartTimeout := StartTimeout g;
     Stderr := Stderr g; SyncStdout := SyncStdout g; SyncStderr := SyncStderr g;
     ConfigLogger := ConfigLogger g; AutoMTLS := AutoMTLS g;
     SkipHostEnv := SkipHostEnv g; ConfigUnixSocket := ConfigUnixSocket g |}.

Definition cl_setConfig (g : ClientConfig) (c : Client) : Client :=
  {| config := g; exited := exited c; address := address c; runner := runner c;
     client := client c; logger := logger c; doneCtx := doneCtx c;
     negotiatedVersion := negotiatedVersion c; negotiatedPlugins := negotiatedPlugins c;
     clientWaitGroup := clientWaitGroup c; stderrWaitGroup := stderrWaitGroup c;
     processKilled := processKilled c; unixSocketCfg := unixSocketCfg c |}.

Definition cl_setAddress (a : option Addr) (c : Client) : Client :=
  {| config := config c; exited := exited c; address := a; runner := runner c;
     client := client c; logger := logger c; doneCtx := doneCtx c;
     negotiatedVersion := negotiatedVersion c; negotiatedPlugins := negotiatedPlugins c;
     clientWaitGroup := clientWaitGroup c; stderrWaitGroup := stderrWaitGroup c;
     processKilled := processKilled c; unixSocketCfg := unixSocketCfg c |}.

Definition cl_setRunner (r : option Runner) (c : Client) : Client :=
  {| config := config c; exited := exited c; address := address c; runner := r;
     client := client c; logger := logger c; doneCtx := doneCtx c;
     negotiatedVersion := negotiatedVersion c; negotiatedPlugins := negotiatedPlugins c;
     clientWaitGroup := clientWaitGroup c; stderrWaitGroup := stderrWaitGroup c;
     processKilled := processKilled c; unixSocketCfg := unixSocketCfg c |}.

Definition cl_setClient (p : option ClientProtocol) (c : Client) : Client :=
  {| config := config c; exited := exited c; address := address c; runner := runner c;
     client := p; logger := logger c; doneCtx := doneCtx c;
     negotiatedVersion := negotiatedVersion c; negotiatedPlugins := negotiatedPlugins c;
     clientWaitGroup := clientWaitGroup c; stderrWaitGroup := stderrWaitGroup c;
     processKilled := processKilled c; unixSocketCfg := unixSocketCfg c |}.

Definition cl_setDoneCtx (b : bool) (c : Client) : Client :=
  {| config := config c; exited := exited c; address := address c; runner := runner c;
     client := client c; logger := logger c; doneCtx := b;
     negotiatedVersion := negotiatedVersion c; negotiatedPlugins := negotiatedPlugins c;
     clientWaitGroup := clientWaitGroup c; stderrWaitGroup := stderrWaitGroup c;
     processKilled := processKilled c; unixSocketCfg := unixSocketCfg c |}.

Definition cl_setNegotiated (v : Z) (p : option PluginSet) (c : Client) : Client :=
  {| config := config c; exited := exited c; address := address c; runner := runner c;
     client := client c; logger := logger c; doneCtx := doneCtx c;
     negotiatedVersion := v; negotiatedPlugins := p;
     clientWaitGroup := clientWaitGroup c; stderrWaitGroup := stderrWaitGroup c;
     processKilled := processKilled c; unixSocketCfg := unixSocketCfg c |}.

Definition cl_setWaitGroups (n m : nat) (c : Client) : Client :=
  {| config := config c; exited := exited c; address := address c; runner := runner c;
     client := client c; logger := logger c; doneCtx := doneCtx c;
     negotiatedVersion := negotiatedVersion c; negotiatedPlugins := negotiatedPlugins c;
     clientWaitGroup := n; stderrWaitGroup := m;
     processKilled := processKilled c; unixSocketCfg := unixSocketCfg c |}.

Definition cl_setProcessKilled (b : bool) (c : Client) : Client :=
  {| config := config c; exited := exited c; address := address c; runner := runner c;
     client := client c; logger := logger c; doneCtx := doneCtx c;
     negotiatedVersion := negotiatedVersion c; negotiatedPlugins := negotiatedPlugins c;
     clientWaitGroup := clientWaitGroup c; stderrWaitGroup := stderrWaitGroup c;
     processKilled := b; unixSocketCfg := unixSocketCfg c |}.

Definition cl_setUnixSocketCfg (u : UnixSocketConfig) (c : Client) : Client :=
  {| config := config c; exited := exited c; address := address c; runner := runner c;
     client := client c; logger := logger c; doneCtx := doneCtx c;
     negotiatedVersion := negotiatedVersion c; negotiatedPlugins := negotiatedPlugins c;
     clientWaitGroup := clientWaitGroup c; stderrWaitGroup := stderrWaitGroup c;
     processKilled := processKilled c; unixSocketCfg := u |}.

Definition usc_setSocketDir (d : string) (u : UnixSocketConfig) : UnixSocketConfig :=
  {| Group := Group u; TempDir := TempDir u; socketDir := d |}.

Definition cmd_setEnv (e : list string) (c : Cmd) : Cmd :=
  {| Path := Path c; Env := e; StdinIsHost := StdinIsHost c |}.

Definition cmd_setStdin (c : Cmd) : Cmd :=
  {| Path := Path c; Env := Env c; StdinIsHost := true |}.

(* ===================================================================== *)
(** ** [NewClient] *)
(* ===================================================================== *)

(** The package variables [Killed] and [managedClients]. *)
Record Globals : Type := { Killed : N; managedClients : list Client }.

Definition orDefault {A} (d : A) (o : option A) : option A :=
  match o with Some x => Some x | None => Some d end.

(** The defaults [NewClient] writes into the configuration. *)
Definition NewClient_config (g : ClientConfig) : ClientConfig :=
  let g := if ((MinPort g =? 0) && (MaxPort g =? 0))%N
           then cfg_setPorts 10000 25000 g else g in
  let g := if (StartTimeout g =? 0)%Z then cfg_setStartTimeout (1 * Minute) g else g in
  cfg_setSinks (orDefault Discard (Stderr g))
               (orDefault Discard (SyncStdout g))
               (orDefault Discard (SyncStderr g))
               (orDefault DefaultPluginLogger (ConfigLogger g)) g.

Definition NewClient (gl : Globals) (g : ClientConfig) : Client * Globals :=
  let g := NewClient_config g in
  let c := {| config := g; exited := false; address := None; runner := None;
              client := None; logger := ConfigLogger g; doneCtx := false;
              negotiatedVersion := 0; negotiatedPlugins := None;
              clientWaitGroup := 0; stderrWaitGroup := 0;
              processKilled := false; unixSocketCfg := UnixSocketConfig_zero |} in
  if Managed g
  then (c, {| Killed := Killed gl; managedClients := managedClients gl ++ [c] |})
  else (c, gl).

(* ===================================================================== *)
(** ** A method call: the receiver, the events so far, and how it ends *)
(* ===================================================================== *)

Record St : Type := { cl : Client; tr : list Event }.

Definition M (A : Type) : Type := St -> Res A * St.

Definition ret {A} (a : A) : M A := fun s => (Ok a, s).
Definition throw {A} (e : Error) : M A := fun s => (Err e, s).
Definition panic {A} (msg : string) : M A := fun s => (Panic msg, s).

Definition bind {A B} (m : M A) (f : A -> M B) : M B :=
  fun s =>
    match m s with
    | (Ok a, s') => f a s'
    | (Err e, s') => (Err e, s')
    | (Panic p, s') => (Panic p, s')
    end.

Declare Scope go_scope.
Delimit Scope go_scope with go.
Notation "x <- m ;; k" := (bind m (fun x => k))
  (at level 100, m at next level, right associativity) : go_scope.
Notation "m ;; k" := (bind m (fun _ => k))
  (at level 100, right associativity) : go_scope.
Local Open Scope go_scope.

Definition get : M Client := fun s => (Ok (cl s), s).
Definition modify (f : Client -> Client) : M unit :=
  fun s => (Ok tt, {| cl := f (cl s); tr := tr s |}).
Definition emit (e : Event) : M unit :=
  fun s => (Ok tt, {| cl := cl s; tr := tr s ++ [e] |}).
Definition modifyConfig (f : ClientConfig -> ClientConfig) : M unit :=
  modify (fun c => cl_setConfig (f (config c)) c).

(** A call that returns [(value, err)]. *)
Definition call {A} (r : Error + A) : M A :=
  match r with inr a => ret a | inl e => throw e end.

(** The same for a call into another package. *)
Definition extern {A} (r : string + A) : M A :=
  match r with inr a => ret a | inl msg => throw (ErrExternal msg) end.

(** [fmt.Errorf] around the error of a call. *)
Definition wrapErr {A} (f : Error -> Error) (m : M A) : M A :=
  fun s =>
    match m s with
    | (Err e, s') => (Err (f e), s')
    | other => other
    end.

(** [parts[i]]. *)
Definition index (parts : list string) (i : nat) : M string :=
  match parts !! i with
  | Some p => ret p
  | None => panic indexOutOfRange
  end.

(* ===================================================================== *)
(** ** [Client.checkProtoVersion] and [Client.loadServerCert] *)
(* ===================================================================== *)

(** The loop over [c.config.VersionedPlugins]. *)
Fixpoint checkLoop (serverVersion : Z) (clientVersions : list Z)
    (entries : list (Z * PluginSet)) : Error + (Z * PluginSet) :=
  match entries with
  | [] => inl (ErrIncompatibleAPI serverVersion clientVersions)
  | (version, plugins) :: rest =>
      let clientVersions := clientVersions ++ [version] in
      if negb (serverVersion =? version)%Z
      then checkLoop serverVersion clientVersions rest
      else inr (version, plugins)
  end.

Definition checkProtoVersion (w : World) (c : Client) (protoVersion : string)
  : Error + (Z * PluginSet) :=
  match Atoi protoVersion with
  | inl k => inl (ErrParsingProtocolVersion protoVersion (ErrAtoi protoVersion k))
  | inr serverVersion =>
      checkLoop serverVersion []
        (rangeCheck w (default ∅ (VersionedPlugins (config c))))
  end.

Definition tls_setCAs (pool : CertPool) (t : TLSConfig) : TLSConfig :=
  {| Certificates := Certificates t; ClientAuth := ClientAuth t;
     MinVersion := MinVersion t; ServerName := ServerName t;
     RootCAs := Some pool; ClientCAs := Some pool |}.

Definition loadServerCert (w : World) (cert : string) : M unit :=
  emit (EvLoadServerCert cert);;
  match Base64.RawStdEncoding_DecodeString cert with
  | None => throw ErrCorruptInput
  | Some asn1 =>
      x509Cert <- extern (ParseCertificate w asn1);;
      let certPool := [x509Cert] in
      c <- get;;
      match ConfigTLS (config c) with
      | None => panic nilDereference
      | Some t => modifyConfig (cfg_setTLS (Some (tls_setCAs certPool t)))
      end
  end.

(* ===================================================================== *)
(** ** [Client.Start] *)
(* ===================================================================== *)

Definition countSet {A} (o : option A) : nat :=
  match o with Some _ => 1 | None => 0 end.

Definition isSet {A} (o : option A) : bool :=
  match o with Some _ => true | None => false end.

(** The slice [env] of [Start]. *)
Definition startEnv (g : ClientConfig) (versions : list string) : list string :=
  [ MagicCookieKey (Handshake g) +:+ "=" +:+ MagicCookieValue (Handshake g);
    "PLUGIN_MIN_PORT=" +:+ fmtUint (MinPort g);
    "PLUGIN_MAX_PORT=" +:+ fmtUint (MaxPort g);
    "PLUGIN_PROTOCOL_VERSIONS=" +:+ Join versions "," ].

(** [EnvUnixSocketGroup] and [EnvUnixSocketDir] are constants declared in
    another file of the package; [Start] only formats them into the
    environment, and the properties below refer to them by name. *)
Definition EnvUnixSocketGroup : string := "PLUGIN_UNIX_SOCKET_GROUP".
Definition EnvUnixSocketDir : string := "PLUGIN_UNIX_SOCKET_DIR".

(** The sixth field is looked at when there is one and it is longer than
    50 bytes: [len(parts) >= 6 && len(parts[5]) > 50]. *)
Definition certOffered (parts : list string) : bool :=
  (6 <=? length parts)%nat
  && match parts !! 5%nat with
     | Some p => (50 <? String.length p)%nat
     | None => false
     end.

(** The branch [case line := <-linesCh] of the [select]. *)
Definition handshake (w : World) (r : Runner) (line : string) : M Addr :=
  let line := TrimSpace line in
  let parts := SplitN line "|" 6 in
  c <- get;;
  vp <- call (checkProtoVersion w c "1");;
  let '(version, plugins) := vp in
  modify (cl_setNegotiated version (Some plugins));;
  emit (EvLog LevelDebug "using plugin");;
  p2 <- index parts 2;;
  p3 <- index parts 3;;
  na <- extern (rPluginToHost r p2 p3);;
  let '(network, address) := na in
  addr <- (if String.eqb network "tcp"
           then wrapErr ErrTCPAddress (extern (ResolveTCPAddr w address))
           else if String.eqb network "unix"
           then wrapErr ErrUnixAddress (extern (ResolveUnixAddr w address))
           else throw (ErrUnknownAddressType address));;
  (if certOffered parts
   then p5 <- index parts 5;;
        wrapErr ErrParsingServerCert (loadServerCert w p5)
   else ret tt);;
  ret addr.

(** The deferred calls registered after [runner.Start]: the drain of stdout
    is started, and the runner is killed when [Start] leaves with an error
    or a panic (which is then raised again). *)
Definition withDefers {A} (r : Runner) (body : M A) : M A :=
  fun s =>
    let '(res, s1) := body s in
    let s2 := {| cl := cl s1; tr := tr s1 ++ [EvGo "drain stdout"] |} in
    match res with
    | Ok a => (Ok a, s2)
    | other => (other, {| cl := cl s2; tr := tr s2 ++ [EvRunnerKill (rName r)] |})
    end.

(** [cmd] is [c.config.Cmd] itself when that is set: what is appended to
    [cmd.Env] is appended to the configuration's command. *)
Definition storeCmd (aliased : bool) (cmd : Cmd) : M unit :=
  if aliased then modifyConfig (cfg_setCmd (Some cmd)) else ret tt.

Definition addWaitGroups (n m : nat) : M unit :=
  modify (fun c => cl_setWaitGroups (clientWaitGroup c + n) (stderrWaitGroup c + m) c).

(** [Start] from the point where the runner has started. *)
Definition awaitHandshake (w : World) (r : Runner) : M Addr :=
  withDefers r (
    modify (cl_setDoneCtx true);;
    addWaitGroups 1 1;;
    emit (EvGo "logStderr");;
    addWaitGroups 1 0;;
    emit (EvGo "wait");;
    addWaitGroups 1 0;;
    emit (EvGo "scan stdout");;
    addWaitGroups 1 0;;
    emit (EvLog LevelDebug "waiting for RPC address");;
    addr <- match rFirst r with
            | SigTimeout => throw ErrStartTimeout
            | SigExited => throw ErrExitedBeforeConnect
            | SigLine line => handshake w r line
            end;;
    modify (cl_setAddress (Some addr));;
    ret addr).

(** The [switch] that obtains the runner. *)
Definition obtainRunner (w : World) (aliased : bool) (cmd : Cmd) : M (Runner * Cmd) :=
  c <- get;;
  match RunnerFunc (config c) with
  | Some runnerFunc =>
      emit (EvMkdirTemp (TempDir (unixSocketCfg c)) "plugin-dir");;
      match MkdirTemp w (TempDir (unixSocketCfg c)) "plugin-dir" with
      | inl err => modify (cl_setUnixSocketCfg (usc_setSocketDir EmptyString (unixSocketCfg c)));;
                   throw (ErrExternal err)
      | inr dir =>
          modify (cl_setUnixSocketCfg (usc_setSocketDir dir (unixSocketCfg c)));;
          (if negb (String.eqb (Group (unixSocketCfg c)) EmptyString)
           then emit (EvSetGroupWritable dir (Group (unixSocketCfg c)));;
                match setGroupWritable w dir (Group (unixSocketCfg c)) with
                | Some err => throw (ErrExternal err)
                | None => ret tt
                end
           else ret tt);;
          let cmd := cmd_setEnv (Env cmd ++ [EnvUnixSocketDir +:+ "=" +:+ dir]) cmd in
          storeCmd aliased cmd;;
          emit (EvLog LevelDebug "created temporary directory for unix sockets");;
          r <- extern (runnerFunc cmd dir);;
          ret (r, cmd)
      end
  | None =>
      r <- extern (NewCmdRunner w cmd);;
      ret (r, cmd)
  end.

Definition autoMTLSConfig (cert : Certificate) : TLSConfig :=
  {| Certificates := [cert]; ClientAuth := RequireAndVerifyClientCert;
     MinVersion := VersionTLS12; ServerName := "localhost";
     RootCAs := None; ClientCAs := None |}.

Definition Start (w : World) : M Addr :=
  c <- get;;
  match address c with
  | Some a => ret a
  | None =>
      let mutuallyExclusiveOptions :=
        (countSet (ConfigCmd (config c)) + countSet (Reattach (config c))
         + countSet (RunnerFunc (config c)))%nat in
      if negb (mutuallyExclusiveOptions =? 1)%nat then throw ErrExactlyOne
      else if isSet (ConfigSecure (config c)) && isSet (Reattach (config c))
      then throw ErrSecureConfigAndReattach
      else
        (match VersionedPlugins (config c) with
         | None => modifyConfig (cfg_setVersionedPlugins (Some ∅))
         | Some _ => ret tt
         end);;
        c <- get;;
        let versions :=
          map (fun e => Itoa (fst e))
              (rangeStart w (default ∅ (VersionedPlugins (config c)))) in
        let env := startEnv (config c) versions in
        let aliased := isSet (ConfigCmd (config c)) in
        let cmd := default (exec_Command EmptyString) (ConfigCmd (config c)) in
        let cmd := if negb (SkipHostEnv (config c))
                   then cmd_setEnv (Env cmd ++ osEnviron w) cmd else cmd in
        let cmd := cmd_setStdin (cmd_setEnv (Env cmd ++ env) cmd) in
        storeCmd aliased cmd;;
        (match ConfigSecure (config c) with
         | Some sc =>
             let '((ok, err), sc') := Check w sc (Path cmd) in
             modifyConfig (cfg_setSecure (Some sc'));;
             match err with
             | Some e => throw (ErrVerifyingChecksum e)
             | None => if negb ok then throw ErrChecksumsDoNotMatch else ret tt
             end
         | None => ret tt
         end);;
        cmd <- (if AutoMTLS (config c)
                then emit (EvLog LevelInfo "configuring client automatic mTLS");;
                     match generateCert w with
                     | inl err =>
                         emit (EvLog LevelError "failed to generate client certificate");;
                         throw (ErrExternal err)
                     | inr (certPEM, keyPEM) =>
                         match X509KeyPair w certPEM keyPEM with
                         | inl err =>
                             emit (EvLog LevelError "failed to parse client certificate");;
                             throw (ErrExternal err)
                         | inr cert =>
                             let cmd := cmd_setEnv
                                          (Env cmd ++ ["PLUGIN_CLIENT_CERT=" +:+ certPEM]) cmd in
                             storeCmd aliased cmd;;
                             modifyConfig (cfg_setTLS (Some (autoMTLSConfig cert)));;
                             ret cmd
                         end
                     end
                else ret cmd);;
        (match ConfigUnixSocket (config c) with
         | Some u => modify (cl_setUnixSocketCfg u)
         | None => ret tt
         end);;
        c <- get;;
        cmd <- (if negb (String.eqb (Group (unixSocketCfg c)) EmptyString)
                then let cmd := cmd_setEnv
                                  (Env cmd ++ [EnvUnixSocketGroup +:+ "="
                                               +:+ Group (unixSocketCfg c)]) cmd in
                     storeCmd aliased cmd;; ret cmd
                else ret cmd);;
        rc <- obtainRunner w aliased cmd;;
        let '(r, cmd) := rc in
        modify (cl_setRunner (Some r));;
        emit (EvRunnerStart (rName r) cmd);;
        match rStart r with
        | Some err => throw (ErrExternal err)
        | None => awaitHandshake w r
        end
  end.

(* ===================================================================== *)
(** ** [Client.Client] and [Client.Kill] *)
(* ===================================================================== *)

(** [func (c *Client) Client() (ClientProtocol, error)]. *)
Definition Client_Client (w : World) : M ClientProtocol :=
  Start w;;
  c <- get;;
  match client c with
  | Some p => ret p
  | None =>
      emit EvDial;;
      match newGRPCClient w c with
      | inr p => modify (cl_setClient (Some p));; ret p
      | inl err => modify (cl_setClient None);; throw (ErrExternal err)
      end
  end.

(** The grace window of [Kill]: [2 * time.Second]. *)
Definition graceWindow : Z := 2 * Second.

(** The deferred function of [Kill]. *)
Definition killCleanup (hostSocketDir : string) : M unit :=
  emit EvWaitGroupWait;;
  modify (fun c => cl_setWaitGroups 0 (stderrWaitGroup c) c);;
  (if negb (String.eqb hostSocketDir EmptyString)
   then emit (EvRemoveAll hostSocketDir) else ret tt);;
  modify (cl_setRunner None).

(** Run [body], then [after], whichever way [body] ended. *)
Definition defer {A} (after : M unit) (body : M A) : M A :=
  fun s =>
    let '(res, s1) := body s in
    match after s1 with
    | (Ok _, s2) => (res, s2)
    | (Err e, s2) => (Err e, s2)
    | (Panic p, s2) => (Panic p, s2)
    end.

(** The close attempt of [Kill]: [graceful] is true when the client was
    obtained and its [Close] returned no error. *)
Definition closeClient (w : World) : M bool :=
  fun s =>
    match Client_Client w s with
    | (Ok p, s1) =>
        (emit (EvClientClose (cpID p));;
         match cpClose p with
         | None => ret true
         | Some _ => emit (EvLog LevelWarn "error closing client during Kill");; ret false
         end) s1
    | (Err _, s1) => (emit (EvLog LevelError "client");; ret false) s1
    | (Panic p, s1) => (Panic p, s1)
    end.

Definition forceKill (r : Runner) : M unit :=
  emit (EvLog LevelWarn "plugin failed to exit gracefully");;
  emit (EvRunnerKill (rName r));;
  (match rKill r with
   | Some _ => emit (EvLog LevelDebug "error killing plugin")
   | None => ret tt
   end);;
  modify (cl_setProcessKilled true).

Definition Kill (w : World) : M unit :=
  c <- get;;
  let addr := address c in
  let hostSocketDir := socketDir (unixSocketCfg c) in
  match runner c with
  | None => ret tt
  | Some r =>
      if String.eqb (rID r) EmptyString then ret tt
      else
        defer (killCleanup hostSocketDir) (
          graceful <- (match addr with
                       | Some _ => closeClient w
                       | None => ret false
                       end);;
          if graceful then
            emit (EvAwaitExit graceWindow);;
            if rExitsWithin r graceWindow
            then emit (EvLog LevelDebug "plugin exited")
            else forceKill r
          else forceKill r)
  end.

(* ===================================================================== *)
(** ** [Client.logStderr] *)
(* ===================================================================== *)

Module Stderr.

(** What reaches the outside: a write to [c.config.Stderr] or a record
    given to the logger. *)
Inductive Out : Type :=
| SinkWrite (p : string)
| Log (l : Level) (msg : string) (args : list string).

(** [logEntry], declared in another file of the package: its message and
    its key/value pairs. *)
Record logEntry (KV : Type) : Type := { Message : string; KVPairs : list KV }.
Arguments Message {KV} _.
Arguments KVPairs {KV} _.

(** One answer of [reader.ReadLine]: a line or a fragment of one. *)
Record ReadLine : Type := { rlLine : string; rlIsPrefix : bool }.

Definition newline : string := String (ascii_of_N 10) EmptyString.

(** The level a line that is not a structured record is logged at. *)
Definition prefixLevel (line : string) : Level :=
  if HasPrefix line "[TRACE]" then LevelDebug
  else if HasPrefix line "[DEBUG]" then LevelDebug
  else if HasPrefix line "[INFO]" then LevelInfo
  else if HasPrefix line "[WARN]" then LevelWarn
  else if HasPrefix line "[ERROR]" then LevelError
  else LevelDebug.

Section Relay.

(** [parseJSON] and [flattenKVPairs] are declared in another file of the
    package. *)
Variable KV : Type.
Variable parseJSON : string -> option (logEntry KV).
Variable flattenKVPairs : list KV -> list string.

(** One turn of the loop for a successful [ReadLine]: what is written
    and logged, and the new value of [continuation]. *)
Definition relayLine (continuation : bool) (r : ReadLine) : list Out * bool :=
  let line := rlLine r in
  let isPrefix := rlIsPrefix r in
  if isPrefix || continuation then
    ([SinkWrite line; Log LevelDebug line []]
       ++ (if negb isPrefix then [SinkWrite newline] else []),
     isPrefix)
  else
    ([SinkWrite line; SinkWrite newline]
       ++ match parseJSON line with
          | None => [Log (prefixLevel line) line []]
          | Some entry => [Log LevelDebug (Message entry) (flattenKVPairs (KVPairs entry))]
          end,
     continuation).

(** The loop, over the answers [ReadLine] gives until it returns
    [io.EOF] ([None]) or another error. *)
Fixpoint relay (continuation : bool) (reads : list ReadLine) (final : option string)
  : list Out :=
  match reads with
  | [] =>
      match final with
      | None => []
      | Some _ => [Log LevelError "reading plugin stderr" ["error"]]
      end
  | r :: rest =>
      let '(out, continuation') := relayLine continuation r in
      out ++ relay continuation' rest final
  end.

Definition logStderr (reads : list ReadLine) (final : option string) : list Out :=
  relay false reads final.

(** The bytes written to the raw sink, in order. *)
Fixpoint sunk (o : list Out) : string :=
  match o with
  | [] => EmptyString
  | SinkWrite p :: r => p +:+ sunk r
  | Log _ _ _ :: r => sunk r
  end.

Fixpoint logged (o : list Out) : list (Level * string * list string) :=
  match o with
  | [] => []
  | SinkWrite _ :: r => logged r
  | Log l m a :: r => (l, m, a) :: logged r
  end.

End Relay.

End Stderr.

(* ===================================================================== *)
(** ** [GRPCServer.Config] *)
(* ===================================================================== *)

Module GRPC.

Record GRPCServerConfig : Type := { StdoutAddr : string; StderrAddr : string }.

Definition dquote : string := String (ascii_of_N 34) EmptyString.
Definition lf : string := String (ascii_of_N 10) EmptyString.

Section Encode.

(** The JSON string literal [encoding/json] writes for a Go string,
    quotes included. *)
Variable jsonString : string -> string.

(** [json.NewEncoder(&buf).Encode(s.config)]: the object with the two
    tagged fields, followed by a new line. *)
Definition jsonEncode (c : GRPCServerConfig) : string :=
  "{" +:+ dquote +:+ "stdout_addr" +:+ dquote +:+ ":" +:+ jsonString (StdoutAddr c)
  +:+ "," +:+ dquote +:+ "stderr_addr" +:+ dquote +:+ ":" +:+ jsonString (StderrAddr c)
  +:+ "}" +:+ lf.

(** [Config] returns the buffer the JSON encoder wrote to. *)
Definition Config (c : GRPCServerConfig) : string := jsonEncode c.

End Encode.

End GRPC.

(* ===================================================================== *)
(** ** A concrete world to run the code in *)
(* ===================================================================== *)

Module Sample.

(** [hash/fnv.New32a]: the 32-bit FNV-1a hash. *)
Definition fnvStep (h : N) (b : ascii) : N :=
  (N.lxor h (N_of_ascii b) * 16777619) mod 2 ^ 32.

Definition fnvSum (h : N) : bytes :=
  [ ascii_of_N (N.shiftr h 24 mod 256); ascii_of_N (N.shiftr h 16 mod 256);
    ascii_of_N (N.shiftr h 8 mod 256); ascii_of_N (h mod 256) ].

Definition fnv32a : HashImpl :=
  {| hstate := N;
     hinit := 2166136261%N;
     hwrite := fun h p => fold_left fnvStep p h;
     hsum := fnvSum;
     hwrite_nil := fun _ => eq_refl;
     hwrite_app := fun s a b => eq_sym (fold_left_app fnvStep a b s) |}.

Definition binary : bytes := list_ascii_of_string "plugin binary".

(** A runner for a process that exits within any grace window once its
    client is closed, and whose advertised address is reachable as it is. *)
Definition sampleRunner (first : FirstSignal) : Runner :=
  {| rName := "plugin"; rID := "4242"; rStart := None; rFirst := first;
     rPluginToHost := fun network address => inr (network, address);
     rExitsWithin := fun _ => true;
     rKill := None |}.

(** A stand-in for [x509.ParseCertificate]: a certificate is a DER
    SEQUENCE, so input that does not start with the tag 0x30 is rejected. *)
Definition parseDER (der : bytes) : string + X509Cert :=
  match der with
  | c :: _ => if (N_of_ascii c =? 48)%N then inr (X509 der)
              else inl "x509: malformed certificate"
  | [] => inl "x509: malformed certificate"
  end.

Definition sampleWorld (first : FirstSignal) : World :=
  {| osEnviron := ["HOME=/root"];
     osOpen := fun _ => inr {| fchunks := [binary]; ferr := None |};
     generateCert := inr ("CERT", "KEY");
     X509KeyPair := fun c k => inr (KeyPair c k);
     MkdirTemp := fun dir pattern => inr "/tmp/plugin-dir1";
     setGroupWritable := fun _ _ => None;
     NewCmdRunner := fun _ => inr (sampleRunner first);
     ResolveTCPAddr := fun a => inr {| Network := "tcp"; AddrString := a |};
     ResolveUnixAddr := fun a => inr {| Network := "unix"; AddrString := a |};
     ParseCertificate := parseDER;
     newGRPCClient := fun _ => inr {| cpID := 1; cpClose := None |};
     rangeStart := map_to_list;
     rangeCheck := map_to_list |}.

Definition plugins : PluginSet := {[ "kv" := PluginHandle 0 ]}.

Definition sampleConfig (versions : gmap Z PluginSet) : ClientConfig :=
  {| Handshake := {| ProtocolVersion := 1; MagicCookieKey := "BASIC_PLUGIN";
                     MagicCookieValue := "hello" |};
     VersionedPlugins := Some versions;
     ConfigCmd := Some {| Path := "./plugin"; Env := []; StdinIsHost := false |};
     Reattach := None; RunnerFunc := None; ConfigSecure := None; ConfigTLS := None;
     Managed := false; MinPort := 0; MaxPort := 0; StartTimeout := 0;
     Stderr := None; SyncStdout := None; SyncStderr := None; ConfigLogger := None;
     AutoMTLS := false; SkipHostEnv := false; ConfigUnixSocket := None |}.

Definition noGlobals : Globals := {| Killed := 0; managedClients := [] |}.

(** A new client for the configuration, before any call. *)
Definition fresh (g : ClientConfig) : St :=
  {| cl := fst (NewClient noGlobals g); tr := [] |}.

Definition v1 : gmap Z PluginSet := {[ 1%Z := plugins ]}.
Definition v2 : gmap Z PluginSet := {[ 2%Z := plugins ]}.

End Sample.

(* ===================================================================== *)
(** ** Definitions used to state the properties *)
(* ===================================================================== *)

(** The text of a line that arrived in pieces. *)
Definition joined (frags : list string) (last : string) : string :=
  fold_right String.append last frags.

(** A fragment that is not the end of its line, and one that is. *)
Definition asPrefix (f : string) : Stderr.ReadLine :=
  {| Stderr.rlLine := f; Stderr.rlIsPrefix := true |}.

Definition asLast (f : string) : Stderr.ReadLine :=
  {| Stderr.rlLine := f; Stderr.rlIsPrefix := false |}.

(** The reads end outside a long line: there is none, or the last one
    ended its line. *)
Definition endsLine (reads : list Stderr.ReadLine) : Prop :=
  match last reads with
  | Some r => Stderr.rlIsPrefix r = false
  | None => True
  end.

(** The events a call added to the trace. *)
Definition newEvents (s s' : St) : list Event := drop (length (tr s)) (tr s').

Module CheckSample.

Import Sample.

Definition w : World := sampleWorld SigTimeout.

(** The checksum of the binary, with a new FNV-1a hash object. *)
Definition sc : SecureConfig :=
  {| Checksum := digest fnv32a binary; SecureHash := Some (Hash_New fnv32a) |}.

(** The same configuration after one call of [Check]. *)
Definition sc1 : SecureConfig := snd (Check w sc "./plugin").

End CheckSample.

(** An event of [Start] once the runner has started: no runner is
    started again, and a certificate that is loaded is a field longer than
    50 bytes. *)
Definition handshakeEvent (e : Event) : Prop :=
  match e with
  | EvRunnerStart _ _ => False
  | EvLoadServerCert cert => (50 < String.length cert)%nat
  | _ => True
  end.

(** An event of [Start]: the runner is started on a command that carries
    the slice [env] built from the configuration [g], and a certificate
    that is loaded is a field longer than 50 bytes. *)
Definition startEvent (g : ClientConfig) (e : Event) : Prop :=
  match e with
  | EvRunnerStart _ cmd => exists versions, incl (startEnv g versions) (Env cmd)
  | EvLoadServerCert cert => (50 < String.length cert)%nat
  | _ => True
  end.

Module PortSample.

Import Sample.

(** The sample configuration with only [MinPort] set. *)
Definition onlyMin : ClientConfig := cfg_setPorts 12000 0 (sampleConfig v1).

Definition w : World := sampleWorld (SigLine "1|1|tcp|127.0.0.1:1234|grpc").

Definition started : Cmd :=
  {| Path := "./plugin";
     Env := ["HOME=/root"; "BASIC_PLUGIN=hello"; "PLUGIN_MIN_PORT=12000";
             "PLUGIN_MAX_PORT=0"; "PLUGIN_PROTOCOL_VERSIONS=1"];
     StdinIsHost := true |}.

End PortSample.

Module StartSample.

Import Sample.

Definition w : World := sampleWorld (SigLine "1|1|tcp|127.0.0.1:1234|grpc").
Definition s0 : St := fresh (sampleConfig v1).
Definition addr : Addr := {| Network := "tcp"; AddrString := "127.0.0.1:1234" |}.

(** The client after its first [Start]. *)
Definition s1 : St := snd (Start w s0).

End StartSample.


Module CertSample.

Import Sample.

(** A sixth field of 52 base64 characters; it decodes to 39 bytes. *)
Definition field : string := "AAAAAAAAAAAAAAAAAAAAAAAAAAAAAAAAAAAAAAAAAAAAAAAAAAAA".
Definition line : string := "1|1|tcp|127.0.0.1:1234|grpc|" +:+ field.
Definition w : World := sampleWorld (SigLine line).
Definition s0 : St := fresh (sampleConfig v1).



End CertSample.

(** What [Kill] uses to close the plugin: the client dispensed earlier, or
    a new one. *)
Definition dispensed (w : World) (c : Client) : string + ClientProtocol :=
  match client c with
  | Some p => inr p
  | None => newGRPCClient w c
  end.

(** The close counts as graceful when there is an address, a client was
    obtained and its [Close] returned no error. *)
Definition graceful (w : World) (c : Client) : bool :=
  match address c with
  | None => false
  | Some _ =>
      match dispensed w c with
      | inr p => negb (isSet (cpClose p))
      | inl _ => false
      end
  end.

(** The events of the close attempt: none without an address. *)
Definition closeAttempt (w : World) (c : Client) : list Event :=
  match address c with
  | None => []
  | Some _ =>
      (match client c with Some _ => [] | None => [EvDial] end)
      ++ match dispensed w c with
         | inr p =>
             EvClientClose (cpID p)
             :: match cpClose p with
                | None => []
                | Some _ => [EvLog LevelWarn "error closing client during Kill"]
                end
         | inl _ => [EvLog LevelError "client"]
         end
  end.

Definition forceKillEvents (r : Runner) : list Event :=
  [EvLog LevelWarn "plugin failed to exit gracefully"; EvRunnerKill (rName r)]
  ++ match rKill r with
     | Some _ => [EvLog LevelDebug "error killing plugin"]
     | None => []
     end.

(** After the close attempt: the wait of the grace window when the close
    was graceful, and the forced kill when it was not or the window ran
    out. *)
Definition afterClose (r : Runner) (g : bool) : list Event :=
  if g then
    EvAwaitExit graceWindow
    :: (if rExitsWithin r graceWindow
        then [EvLog LevelDebug "plugin exited"]
        else forceKillEvents r)
  else forceKillEvents r.

Definition cleanupEvents (dir : string) : list Event :=
  EvWaitGroupWait :: (if String.eqb dir EmptyString then [] else [EvRemoveAll dir]).

(* ===================================================================== *)
(** ** [Client.ID], [Client.NegotiatedVersion] and [CleanupClients] *)
(* ===================================================================== *)

(** [func (c *Client) NegotiatedVersion() int]. *)
Definition NegotiatedVersion (c : Client) : Z := negotiatedVersion c.

(** [func (c *Client) ID() string]. *)
Definition ID (c : Client) : string :=
  match runner c with
  | Some r => rID r
  | None => EmptyString
  end.

(** The path [Start] gives to [SecureConfig.Check]: that of the configured
    command, or of the command [exec.Command] makes for the empty name when
    there is none. *)
Definition checkedPath (c : Client) : string :=
  Path (default (exec_Command EmptyString) (ConfigCmd (config c))).

(** An event that is neither the start nor the kill of a runner. *)
Definition calmEvent (e : Event) : Prop :=
  match e with
  | EvRunnerStart _ _ | EvRunnerKill _ => False
  | _ => True
  end.

(** What the handshake may do to the TLS configuration: nothing, or put
    one server certificate in both CA pools. *)
Definition tlsStep (t t' : option TLSConfig) : Prop :=
  t' = t \/ exists t0 x, t = Some t0 /\ t' = Some (tls_setCAs [x] t0).

(** What holds of the client [c1] when [Start], called on the client [c],
    has started the runner [r] on the command [cmd]. *)
Definition started (w : World) (c : Client) (r : Runner) (cmd : Cmd) (c1 : Client)
  : Prop :=
  address c1 = address c
  /\ runner c1 = Some r
  /\ client c1 = client c
  /\ VersionedPlugins (config c1) = Some (default ∅ (VersionedPlugins (config c)))
  /\ Path cmd = checkedPath c
  /\ match ConfigSecure (config c) with
     | Some sc => fst (Check w sc (checkedPath c)) = (true, None)
     | None => True
     end
  /\ (if AutoMTLS (config c)
      then exists certPEM keyPEM cert,
             generateCert w = inr (certPEM, keyPEM)
             /\ X509KeyPair w certPEM keyPEM = inr cert
             /\ ConfigTLS (config c1) = Some (autoMTLSConfig cert)
             /\ In ("PLUGIN_CLIENT_CERT=" +:+ certPEM) (Env cmd)
      else ConfigTLS (config c1) = ConfigTLS (config c))
  /\ match RunnerFunc (config c) with
     | Some runnerFunc =>
         exists dir,
           MkdirTemp w (TempDir (default (unixSocketCfg c) (ConfigUnixSocket (config c))))
             "plugin-dir" = inr dir
           /\ socketDir (unixSocketCfg c1) = dir
           /\ In (EnvUnixSocketDir +:+ "=" +:+ dir) (Env cmd)
           /\ runnerFunc cmd dir = inr r
     | None =>
         NewCmdRunner w cmd = inr r
         /\ unixSocketCfg c1 = default (unixSocketCfg c) (ConfigUnixSocket (config c))
     end.

(** [CleanupClients].  [managedClients] stands for the clients the slice
    points to, as they are when the call is made.  Every goroutine calls
    [Kill] on a client of its own and the call returns when all of them are
    done, so the clients are taken one after the other, each with the
    events of its own [Kill]. *)
Definition killAll (w : World) (cs : list Client) : list (Res unit * St) :=
  map (fun c => Kill w {| cl := c; tr := [] |}) cs.

Definition CleanupClients (w : World) (g : Globals) : Globals * list (list Event) :=
  let done := killAll w (managedClients g) in
  ({| Killed := 1; managedClients := map (fun r => cl (snd r)) done |},
   map (fun r => tr (snd r)) done).

(** What the raw sink of [logStderr] is expected to hold after a run of
    reads: the bytes of every read, and a new line after each read that is
    not a prefix. *)
Fixpoint rawBytes (reads : list Stderr.ReadLine) : string :=
  match reads with
  | [] => EmptyString
  | r :: rest =>
      Stderr.rlLine r
      +:+ (if Stderr.rlIsPrefix r then EmptyString else Stderr.newline)
      +:+ rawBytes rest
  end.

Module CleanupSample.

(** One started client and one new client are registered. *)
Definition globals : Globals :=
  {| Killed := 0;
     managedClients := [cl StartSample.s1; cl StartSample.s0] |}.

End CleanupSample.

Module RunSample.

Import Sample.

(** A world in which the plugin prints nothing before the timeout. *)
Definition timeoutWorld : World := sampleWorld SigTimeout.

(** The command the sample runner is started on. *)
Definition started : Cmd :=
  {| Path := "./plugin";
     Env := ["HOME=/root"; "BASIC_PLUGIN=hello"; "PLUGIN_MIN_PORT=10000";
             "PLUGIN_MAX_PORT=25000"; "PLUGIN_PROTOCOL_VERSIONS=1"];
     StdinIsHost := true |}.

(** The sample configuration with [AutoMTLS], a secure configuration that
    holds the checksum of the binary, a TLS configuration of the caller's,
    and no host environment. *)
Definition callerTLS : TLSConfig :=
  {| Certificates := []; ClientAuth := NoClientCert; MinVersion := VersionTLS12;
     ServerName := "plugin.example"; RootCAs := None; ClientCAs := None |}.

Definition mtlsConfig : ClientConfig :=
  {| Handshake := Handshake (sampleConfig v1);
     VersionedPlugins := Some v1;
     ConfigCmd := ConfigCmd (sampleConfig v1);
     Reattach := None; RunnerFunc := None;
     ConfigSecure := Some CheckSample.sc; ConfigTLS := Some callerTLS;
     Managed := false; MinPort := 0; MaxPort := 0; StartTimeout := 0;
     Stderr := None; SyncStdout := None; SyncStderr := None; ConfigLogger := None;
     AutoMTLS := true; SkipHostEnv := true; ConfigUnixSocket := None |}.

Definition mtlsStarted : Cmd :=
  {| Path := "./plugin";
     Env := ["BASIC_PLUGIN=hello"; "PLUGIN_MIN_PORT=10000"; "PLUGIN_MAX_PORT=25000";
             "PLUGIN_PROTOCOL_VERSIONS=1"; "PLUGIN_CLIENT_CERT=CERT"];
     StdinIsHost := true |}.

(** A configuration with a [RunnerFunc] and no command; the plugin
    listens on a socket in the directory it is given. *)
Definition socketRunner : Runner :=
  sampleRunner (SigLine "1|1|unix|/tmp/plugin-dir1/sock|grpc").

Definition runnerFunc (cmd : Cmd) (dir : string) : string + Runner := inr socketRunner.

Definition funcConfig : ClientConfig :=
  {| Handshake := Handshake (sampleConfig v1);
     VersionedPlugins := Some v1;
     ConfigCmd := None;
     Reattach := None; RunnerFunc := Some runnerFunc;
     ConfigSecure := None; ConfigTLS := None;
     Managed := false; MinPort := 0; MaxPort := 0; StartTimeout := 0;
     Stderr := None; SyncStdout := None; SyncStderr := None; ConfigLogger := None;
     AutoMTLS := false; SkipHostEnv := true; ConfigUnixSocket := None |}.

Definition funcStarted : Cmd :=
  {| Path := EmptyString;
     Env := ["BASIC_PLUGIN=hello"; "PLUGIN_MIN_PORT=10000"; "PLUGIN_MAX_PORT=25000";
             "PLUGIN_PROTOCOL_VERSIONS=1"; "PLUGIN_UNIX_SOCKET_DIR=/tmp/plugin-dir1"];
     StdinIsHost := true |}.

End RunSample.

Module NoIDSample.

Import Sample.

(** A runner made by [RunnerFunc] that reports no identity. *)
Definition anonymous : Runner :=
  {| rName := "plugin"; rID := EmptyString; rStart := None;
     rFirst := SigLine "1|1|unix|/tmp/plugin-dir1/sock|grpc";
     rPluginToHost := fun network address => inr (network, address);
     rExitsWithin := fun _ => false;
     rKill := None |}.

Definition config : ClientConfig :=
  {| Handshake := Handshake (sampleConfig v1);
     VersionedPlugins := Some v1;
     ConfigCmd := None;
     Reattach := None; RunnerFunc := Some (fun _ _ => inr anonymous);
     ConfigSecure := None; ConfigTLS := None;
     Managed := false; MinPort := 0; MaxPort := 0; StartTimeout := 0;
     Stderr := None; SyncStdout := None; SyncStderr := None; ConfigLogger := None;
     AutoMTLS := false; SkipHostEnv := true; ConfigUnixSocket := None |}.

Definition w : World := sampleWorld SigTimeout.
Definition s0 : St := fresh config.

(** The client after [Start]. *)
Definition s1 : St := snd (Start w s0).

End NoIDSample.

Module GateSample.

(** A secure configuration whose checksum is not that of the binary, and
    the sample configuration with it. *)
Definition sc : SecureConfig :=
  {| Checksum := list_ascii_of_string "0000";
     SecureHash := Some (Hash_New Sample.fnv32a) |}.

Definition wrongSum : ClientConfig :=
  cfg_setSecure (Some sc) (Sample.sampleConfig Sample.v1).

End GateSample.

(* ===================================================================== *)
(** ** [GRPCServer]: [Init], [Stop], [GracefulStop], [Serve] *)
(* ===================================================================== *)

Module GRPCSrv.

(** [grpc.ServerOption]: the only option [Init] builds is [grpc.Creds]. *)
Inductive ServerOption : Type := Creds (t : TLSConfig).

(** A [*grpc.Server], by the options it was made with. *)
Inductive GrpcServer : Type := GrpcServerOf (opts : list ServerOption).

(** A Go channel, as far as [close] is concerned. *)
Inductive Chan : Type := ChanNil | ChanOpen | ChanClosed.

(** [GRPCServiceName]. *)
Definition GRPCServiceName : string := "plugin".

(** [GRPCServer].  The broker and the stdio server are kept as present or
    absent; the readers and the logger are left out. *)
Record GRPCServer : Type := {
  Plugins : gmap string Plugin;
  Server : option (list ServerOption -> GrpcServer);
  TLS : option TLSConfig;
  DoneCh : Chan;
  config : GRPC.GRPCServerConfig;
  server : option GrpcServer;
  broker : bool;
  stdioServer : bool
}.

(** What a method does to the gRPC server and the broker, in order. *)
Inductive Ev : Type :=
| NewGrpcServer (opts : list ServerOption)
| RegisterHealth (service : string)   (* with status SERVING *)
| RegisterReflection
| RegisterBroker
| GoBrokerRun
| RegisterController
| RegisterStdio
| PluginGRPCServer (key : string)     (* [p.GRPCServer(s.broker, s.server)] *)
| ServerStop
| ServerGracefulStop
| BrokerClose
| ServerServe
| LogError (msg : string)
| CloseDoneCh.

(** The error of [Init]: "error registering %q: %s". *)
Inductive InitError : Type := ErrRegistering (key : string) (err : string).

(** How a method ends. *)
Inductive Outcome : Type :=
| Done
| Failed (e : InitError)
| Panicked (msg : string).

Definition closeOfNilChannel : string := "close of nil channel".
Definition closeOfClosedChannel : string := "close of closed channel".

(** What the plugins and the listener answer, and the order in which the
    [range] of [Init] visits the plugins. *)
Record Env : Type := {
  pluginGRPCServer : string -> Plugin -> option string;
  rangePlugins : gmap string Plugin -> list (string * Plugin);
  serveErr : option string
}.

Definition rangePluginsOK (E : Env) : Prop :=
  forall m, rangePlugins E m ≡ₚ map_to_list m.

Definition setInit (srv : GrpcServer) (s : GRPCServer) : GRPCServer :=
  {| Plugins := Plugins s; Server := Server s; TLS := TLS s; DoneCh := DoneCh s;
     config := config s; server := Some srv; broker := true; stdioServer := true |}.

Definition setBroker (b : bool) (s : GRPCServer) : GRPCServer :=
  {| Plugins := Plugins s; Server := Server s; TLS := TLS s; DoneCh := DoneCh s;
     config := config s; server := server s; broker := b;
     stdioServer := stdioServer s |}.

Definition setDoneCh (c : Chan) (s : GRPCServer) : GRPCServer :=
  {| Plugins := Plugins s; Server := Server s; TLS := TLS s; DoneCh := c;
     config := config s; server := server s; broker := broker s;
     stdioServer := stdioServer s |}.

(** The loop of [Init] over the plugins: it returns at the first plugin
    whose [GRPCServer] fails. *)
Fixpoint registerPlugins (E : Env) (entries : list (string * Plugin))
  : list Ev * option InitError :=
  match entries with
  | [] => ([], None)
  | (k, p) :: rest =>
      match pluginGRPCServer E k p with
      | Some err => ([PluginGRPCServer k], Some (ErrRegistering k err))
      | None =>
          let '(evs, r) := registerPlugins E rest in
          (PluginGRPCServer k :: evs, r)
      end
  end.

(** The services [Init] registers before the plugins. *)
Definition standardServices : list Ev :=
  [RegisterHealth GRPCServiceName; RegisterReflection; RegisterBroker; GoBrokerRun;
   RegisterController; RegisterStdio].

Definition Init (E : Env) (s : GRPCServer) : Outcome * GRPCServer * list Ev :=
  let opts := match TLS s with Some t => [Creds t] | None => [] end in
  match Server s with
  | None => (Panicked nilDereference, s, [])
  | Some newServer =>
      let s1 := setInit (newServer opts) s in
      let '(evs, r) := registerPlugins E (rangePlugins E (Plugins s)) in
      (match r with Some e => Failed e | None => Done end,
       s1,
       NewGrpcServer opts :: standardServices ++ evs)
  end.

(** [Stop] and [GracefulStop] differ in the call on the gRPC server. *)
Definition stopWith (stop : Ev) (s : GRPCServer) : Outcome * GRPCServer * list Ev :=
  match server s with
  | None => (Panicked nilDereference, s, [])
  | Some _ =>
      if broker s then (Done, setBroker false s, [stop; BrokerClose])
      else (Done, s, [stop])
  end.

Definition Stop (s : GRPCServer) : Outcome * GRPCServer * list Ev :=
  stopWith ServerStop s.

Definition GracefulStop (s : GRPCServer) : Outcome * GRPCServer * list Ev :=
  stopWith ServerGracefulStop s.

(** The deferred [close(s.DoneCh)]. *)
Definition closeDone (s : GRPCServer) : Outcome * GRPCServer * list Ev :=
  match DoneCh s with
  | ChanOpen => (Done, setDoneCh ChanClosed s, [CloseDoneCh])
  | ChanNil => (Panicked closeOfNilChannel, s, [])
  | ChanClosed => (Panicked closeOfClosedChannel, s, [])
  end.

(** [Serve]: the listener is served until [Serve] of the gRPC server
    returns, its error is logged, and the channel is closed on the way
    out, also when the call on a missing server has panicked. *)
Definition Serve (E : Env) (s : GRPCServer) : Outcome * GRPCServer * list Ev :=
  match server s with
  | None =>
      match closeDone s with
      | (Done, s', evs) => (Panicked nilDereference, s', evs)
      | other => other
      end
  | Some _ =>
      let logs := match serveErr E with
                  | Some err => [LogError "grpc server"]
                  | None => []
                  end in
      let '(o, s', evs) := closeDone s in
      (o, s', ServerServe :: logs ++ evs)
  end.

(** A run of calls to [Stop] ([false]) and [GracefulStop] ([true]), one
    after the other; it ends at the first call that does not return. *)
Fixpoint stops (calls : list bool) (s : GRPCServer) : Outcome * GRPCServer * list Ev :=
  match calls with
  | [] => (Done, s, [])
  | g :: rest =>
      match (if g then GracefulStop s else Stop s) with
      | (Done, s1, evs) =>
          let '(o, s2, evs') := stops rest s1 in (o, s2, evs ++ evs')
      | other => other
      end
  end.

Definition isBrokerClose (e : Ev) : bool :=
  match e with BrokerClose => true | _ => false end.

Definition isServerStop (e : Ev) : bool :=
  match e with ServerStop | ServerGracefulStop => true | _ => false end.

(** The keys of the plugins whose [GRPCServer] was called, in order. *)
Fixpoint pluginCalls (evs : list Ev) : list string :=
  match evs with
  | [] => []
  | PluginGRPCServer k :: rest => k :: pluginCalls rest
  | _ :: rest => pluginCalls rest
  end.

End GRPCSrv.

Module SrvSample.

(** Plugins register, except the one under the key "bad". *)
Definition env : GRPCSrv.Env :=
  {| GRPCSrv.pluginGRPCServer :=
       fun k _ => if String.eqb k "bad" then Some "no such service" else None;
     GRPCSrv.rangePlugins := map_to_list;
     GRPCSrv.serveErr := None |}.

Definition serverWith (plugins : gmap string Plugin) : GRPCSrv.GRPCServer :=
  {| GRPCSrv.Plugins := plugins;
     GRPCSrv.Server := Some GRPCSrv.GrpcServerOf;
     GRPCSrv.TLS := None;
     GRPCSrv.DoneCh := GRPCSrv.ChanOpen;
     GRPCSrv.config := {| GRPC.StdoutAddr := "127.0.0.1:1000";
                          GRPC.StderrAddr := "127.0.0.1:1001" |};
     GRPCSrv.server := None;
     GRPCSrv.broker := false;
     GRPCSrv.stdioServer := false |}.

Definition good : GRPCSrv.GRPCServer :=
  serverWith {[ "kv" := PluginHandle 0; "log" := PluginHandle 1 ]}.

Definition bad : GRPCSrv.GRPCServer :=
  serverWith {[ "bad" := PluginHandle 2 ]}.

(** The server [good] after [Init]. *)
Definition initialised : GRPCSrv.GRPCServer := snd (fst (GRPCSrv.Init env good)).

End SrvSample.

(* ===================================================================== *)
(** * Properties *)
(* ===================================================================== *)

(** The sample plugin prints a well-formed line for the configured version
    and [Start] returns the address on it. *)
Example Start_sample :
  fst (Start (Sample.sampleWorld (SigLine "1|1|tcp|127.0.0.1:1234|grpc"))
             (Sample.fresh (Sample.sampleConfig Sample.v1)))
  = Ok {| Network := "tcp"; AddrString := "127.0.0.1:1234" |}.
Proof. vm_compute. reflexivity. Qed.

(** ** Reasoning about calls *)

(** Unfold the plumbing of a call in a hypothesis, then split on the first
    value the code branches on. *)
Ltac go_unfold H :=
  cbv beta iota zeta delta
    [bind ret throw panic call extern get modify emit modifyConfig wrapErr index
     withDefers storeCmd addWaitGroups defer] in H;
  cbn [cl tr] in H.

(** Split on a scrutinee that is not itself a case analysis. *)
Ltac go_destruct x :=
  lazymatch x with
  | context [match _ with _ => _ end] => fail
  | _ => destruct x eqn:?
  end.

Ltac go_case H :=
  match type of H with
  | context [match ?x with inl _ => _ | inr _ => _ end] => go_destruct x
  | context [match ?x with Some _ => _ | None => _ end] => go_destruct x
  | context [if ?b then _ else _] => go_destruct b
  | context [match ?x with pair _ _ => _ end] => go_destruct x
  | context [match ?x with Ok _ => _ | Err _ => _ | Panic _ => _ end] =>
      go_destruct x
  | context [match ?x with SigTimeout => _ | SigExited => _ | SigLine _ => _ end] =>
      go_destruct x
  end;
  go_unfold H;
  try discriminate H.

Ltac go_run H := go_unfold H; repeat go_case H.

Lemma newEvents_app s s' l : tr s' = tr s ++ l -> newEvents s s' = l.
Proof. unfold newEvents. intros ->. apply drop_app_length. Qed.

(** ** [checkProtoVersion] *)

Lemma checkLoop_found sv acc entries v ps :
  checkLoop sv acc entries = inr (v, ps) -> v = sv /\ In (v, ps) entries.
Proof.
  revert acc. induction entries as [| [k p] rest IH]; intros acc H; simpl in H.
  - discriminate.
  - destruct (sv =? k)%Z eqn:E; simpl in H.
    + apply Z.eqb_eq in E. inversion H; subst. split; [reflexivity | now left].
    + destruct (IH _ H) as [-> Hin]. split; [reflexivity | now right].
Qed.

Lemma checkLoop_missing sv acc entries :
  ~ In sv (map fst entries) ->
  checkLoop sv acc entries = inl (ErrIncompatibleAPI sv (acc ++ map fst entries)).
Proof.
  revert acc. induction entries as [| [k p] rest IH]; intros acc H; simpl in *.
  - now rewrite app_nil_r.
  - destruct (sv =? k)%Z eqn:E; simpl.
    + apply Z.eqb_eq in E. exfalso. apply H. now left.
    + rewrite IH by (intros Hin; apply H; now right).
      now rewrite <- app_assoc.
Qed.

Lemma checkLoop_present sv acc entries :
  In sv (map fst entries) -> exists ps, checkLoop sv acc entries = inr (sv, ps).
Proof.
  revert acc. induction entries as [| [k p] rest IH]; intros acc H; simpl in *.
  - contradiction.
  - destruct (sv =? k)%Z eqn:E; simpl.
    + apply Z.eqb_eq in E. subst. now exists p.
    + apply IH. destruct H as [H | H]; [| exact H].
      apply Z.eqb_neq in E. congruence.
Qed.

(** What [checkProtoVersion] does with the version it is given: an exact
    match in the map selects that entry, and otherwise the error carries
    the version given and every configured version. *)
Lemma checkProtoVersion_lookup (w : World) (c : Client) (m : gmap Z PluginSet) pv sv :
  rangeOK (rangeCheck w) ->
  VersionedPlugins (config c) = Some m ->
  Atoi pv = inr sv ->
  match m !! sv with
  | Some ps => checkProtoVersion w c pv = inr (sv, ps)
  | None => exists keys, checkProtoVersion w c pv = inl (ErrIncompatibleAPI sv keys)
                         /\ keys ≡ₚ map fst (map_to_list m)
  end.
Proof.
  intros Hr Hm Ha. unfold checkProtoVersion. rewrite Ha, Hm. simpl.
  destruct (m !! sv) as [ps |] eqn:L.
  - assert (Hin : In sv (map fst (rangeCheck w m))).
    { apply in_map_iff. exists (sv, ps). split; [reflexivity |].
      apply list_elem_of_In. rewrite (Hr m). now apply elem_of_map_to_list. }
    destruct (checkLoop_present sv [] _ Hin) as [ps' E]. rewrite E.
    destruct (checkLoop_found _ _ _ _ _ E) as [_ Hin'].
    apply list_elem_of_In in Hin'. rewrite (Hr m) in Hin'.
    apply elem_of_map_to_list in Hin'. congruence.
  - exists (map fst (rangeCheck w m)). split.
    + apply checkLoop_missing. intros Hin. apply in_map_iff in Hin.
      destruct Hin as [[k p] [Hk Hin]]. simpl in Hk. subst k.
      apply list_elem_of_In in Hin. rewrite (Hr m) in Hin.
      apply elem_of_map_to_list in Hin. congruence.
    + now rewrite (Hr m).
Qed.

(** [loadServerCert] records its call and touches nothing but the CA
    pools of the TLS configuration. *)
Lemma loadServerCert_frame w cert s res s' :
  loadServerCert w cert s = (res, s') ->
  tr s' = tr s ++ [EvLoadServerCert cert]
  /\ (cl s' = cl s
      \/ exists t x, ConfigTLS (config (cl s)) = Some t /\ res = Ok tt
                     /\ cl s' = cl_setConfig
                                  (cfg_setTLS (Some (tls_setCAs [x] t)) (config (cl s)))
                                  (cl s)).
Proof.
  unfold loadServerCert. intros H. go_run H; inversion H; subst; cbn [cl tr];
    (split; [reflexivity |]); try (left; reflexivity).
  right. eauto.
Qed.

(** The version probed by [Start] is the constant 1: whenever the handshake
    branch succeeds, version 1 is what was negotiated, whatever the line
    offered. *)
Lemma handshake_negotiates_1 w r line s a s' :
  handshake w r line s = (Ok a, s') -> negotiatedVersion (cl s') = 1%Z.
Proof.
  unfold handshake. intros H. go_unfold H.
  destruct (checkProtoVersion w (cl s) "1") as [e | [version plugins]] eqn:E;
    go_unfold H; [discriminate |].
  apply checkLoop_found in E as [-> _].
  go_run H; inversion H; subst; try reflexivity;
    match goal with
    | L : loadServerCert _ _ _ = _ |- _ =>
        apply loadServerCert_frame in L as [_ [-> | (t & x & _ & _ & ->)]]
    end; reflexivity.
Qed.

(** ** Version negotiation in [Start] *)

(** C1 (the code departs from the claim).  The plugin offers application
    version 2 on its handshake line.  With version 2 configured, [Start]
    does not select it: it fails with the negotiation error for version 1.
    With only version 1 configured, [Start] does not fail: it negotiates
    version 1.  [Start] calls [checkProtoVersion] on the constant 1 and
    never on the second field of the line. *)
Theorem Start_probes_fixed_version :
  let line := "1|2|tcp|127.0.0.1:1234|grpc" in
  let w := Sample.sampleWorld (SigLine line) in
  SplitN (TrimSpace line) "|" 6 !! 1%nat = Some "2"
  /\ fst (Start w (Sample.fresh (Sample.sampleConfig Sample.v2)))
     = Err (ErrIncompatibleAPI 1 [2%Z])
  /\ incompatibleAPIMessage 1 [2%Z]
     = "incompatible API version with plugin. Plugin version: 1, Client versions: [2]"
  /\ fst (Start w (Sample.fresh (Sample.sampleConfig Sample.v1)))
     = Ok {| Network := "tcp"; AddrString := "127.0.0.1:1234" |}
  /\ negotiatedVersion (cl (snd (Start w (Sample.fresh (Sample.sampleConfig Sample.v1)))))
     = 1%Z.
Proof. vm_compute. repeat split; reflexivity. Qed.

(** ** Malformed handshake lines *)

(** A line with fewer than four fields makes the handshake branch panic on
    [parts[2]] or [parts[3]] as soon as version 1 is configured. *)
Lemma handshake_short_line_panics w r line s v ps :
  (length (SplitN (TrimSpace line) "|" 6) < 4)%nat ->
  checkProtoVersion w (cl s) "1" = inr (v, ps) ->
  fst (handshake w r line s) = Panic indexOutOfRange.
Proof.
  intros Hlen E. unfold handshake.
  cbv beta iota zeta delta [bind call get ret modify emit index].
  rewrite E. cbn [cl tr].
  destruct (SplitN (TrimSpace line) "|" 6 !! 2%nat) eqn:E2; [| reflexivity].
  rewrite (proj2 (lookup_ge_None (SplitN (TrimSpace line) "|" 6) 3)) by lia.
  reflexivity.
Qed.

(** C3 (the code departs from the claim).  On a handshake line without any
    separator, on the empty line read when stdout is closed, and on a line
    of three fields, [Start] does not return an error: it panics with an
    index out of range (after killing the runner). *)
Theorem Start_panics_on_short_line :
  let run line := Start (Sample.sampleWorld (SigLine line))
                        (Sample.fresh (Sample.sampleConfig Sample.v1)) in
  length (SplitN (TrimSpace "garbage") "|" 6) = 1%nat
  /\ fst (run "garbage") = Panic indexOutOfRange
  /\ last (tr (snd (run "garbage"))) = Some (EvRunnerKill "plugin")
  /\ fst (run EmptyString) = Panic indexOutOfRange
  /\ fst (run "1|1|tcp") = Panic indexOutOfRange.
Proof. vm_compute. repeat split; reflexivity. Qed.

(** ** [GRPCServer.Config] *)

Lemma skipNewlines_cons c r :
  Base64.isNewline c = false ->
  Base64.skipNewlines (String c r) = c :: Base64.skipNewlines r.
Proof. intros H. unfold Base64.skipNewlines. simpl. now rewrite H. Qed.

(** C6 (the code departs from the claim).  [Config] returns the JSON text
    itself: whatever the two addresses are and however strings are written
    in JSON, the result starts with a brace, which no base64 alphabet has,
    so decoding it as base64 (padded or not) fails and the round trip the
    claim describes cannot be made. *)
Theorem Config_is_not_base64 (jsonString : string -> string) (c : GRPC.GRPCServerConfig) :
  (exists rest, GRPC.Config jsonString c = String "{" rest)
  /\ Base64.decodeMap "{" = None
  /\ Base64.StdEncoding_DecodeString (GRPC.Config jsonString c) = None
  /\ Base64.RawStdEncoding_DecodeString (GRPC.Config jsonString c) = None.
Proof.
  unfold GRPC.Config, GRPC.jsonEncode, GRPC.dquote.
  cbv beta iota delta [String.append].
  split; [eexists; reflexivity |]. split; [reflexivity |].
  unfold Base64.StdEncoding_DecodeString, Base64.RawStdEncoding_DecodeString.
  rewrite !skipNewlines_cons by reflexivity.
  split; reflexivity.
Qed.

(** The text [Config] returns for two loopback addresses, with a string
    encoder that only adds the quotes. *)
Example Config_sample :
  GRPC.Config (fun s => GRPC.dquote +:+ s +:+ GRPC.dquote)
    {| GRPC.StdoutAddr := "127.0.0.1:1000"; GRPC.StderrAddr := "127.0.0.1:1001" |}
  = "{" +:+ GRPC.dquote +:+ "stdout_addr" +:+ GRPC.dquote +:+ ":"
    +:+ GRPC.dquote +:+ "127.0.0.1:1000" +:+ GRPC.dquote +:+ ","
    +:+ GRPC.dquote +:+ "stderr_addr" +:+ GRPC.dquote +:+ ":"
    +:+ GRPC.dquote +:+ "127.0.0.1:1001" +:+ GRPC.dquote +:+ "}" +:+ GRPC.lf.
Proof. reflexivity. Qed.

(** ** [SecureConfig.Check] *)

Lemma orXor_zero v x y :
  length x = length y -> (Subtle.orXor v x y = 0%N <-> v = 0%N /\ x = y).
Proof.
  revert v y. induction x as [| a x IH]; intros v [| b y] Hlen; simpl in *;
    try discriminate.
  - intuition.
  - rewrite IH by congruence. rewrite N.lor_eq_0_iff, N.lxor_eq_0_iff. split.
    + intros [[Hv Hab] ->]. split; [exact Hv |]. f_equal.
      rewrite <- (ascii_N_embedding a), <- (ascii_N_embedding b). now rewrite Hab.
    + intros [Hv Heq]. inversion Heq; subst. auto.
Qed.

Lemma ConstantTimeCompare_1_iff x y :
  Subtle.ConstantTimeCompare x y = 1%Z <-> x = y.
Proof.
  unfold Subtle.ConstantTimeCompare.
  destruct (length x =? length y)%nat eqn:E; simpl.
  - apply Nat.eqb_eq in E. destruct (Subtle.orXor 0 x y =? 0)%N eqn:F.
    + apply N.eqb_eq in F. apply orXor_zero in F; [| exact E]. intuition.
    + apply N.eqb_neq in F. split; [discriminate |]. intros ->.
      exfalso. apply F. apply orXor_zero; auto.
  - apply Nat.eqb_neq in E. split; [discriminate |]. intros ->. now elim E.
Qed.

Lemma Hash_Write_nil h : Hash_Write h [] = h.
Proof. destruct h as [i st]. unfold Hash_Write. simpl. now rewrite hwrite_nil. Qed.

Lemma Hash_Write_app h a b : Hash_Write (Hash_Write h a) b = Hash_Write h (a ++ b).
Proof. unfold Hash_Write. simpl. now rewrite hwrite_app. Qed.

(** Copying a file into a hash writes the whole contents of the file. *)
Lemma ioCopy_contents h f :
  fst (ioCopy h f) = Hash_Write h (concat (fchunks f)).
Proof.
  unfold ioCopy. simpl. generalize (fchunks f) as l. intros l. revert h.
  induction l as [| c l IH]; intros h; simpl.
  - now rewrite Hash_Write_nil.
  - now rewrite IH, Hash_Write_app.
Qed.

(** With a hash object that has absorbed nothing yet, [Check] is what its
    documentation says: the two configuration errors, the I/O errors
    passed on, and otherwise the comparison of the file's digest with the
    checksum. *)
Lemma Check_with_new_hash (w : World) (s : SecureConfig) (i : HashImpl) (path : string) :
  SecureHash s = Some (Hash_New i) ->
  Checksum s <> [] ->
  match osOpen w path with
  | inl err => fst (Check w s path) = (false, Some (ErrExternal err))
  | inr f =>
      match ferr f with
      | Some err => fst (Check w s path) = (false, Some (ErrExternal err))
      | None =>
          (digest i (concat (fchunks f)) = Checksum s
           -> fst (Check w s path) = (true, None))
          /\ (digest i (concat (fchunks f)) <> Checksum s
              -> fst (Check w s path) = (false, None))
      end
  end.
Proof.
  intros Hh Hc. unfold Check. rewrite Hh.
  destruct (Checksum s) as [| c0 cs] eqn:EC; [contradiction |]. simpl length.
  cbn [Nat.eqb]. destruct (osOpen w path) as [err | f]; [reflexivity |].
  pose proof (ioCopy_contents (Hash_New i) f) as Hio.
  destruct (ioCopy (Hash_New i) f) as [h' err] eqn:E.
  assert (ferr f = err) by (unfold ioCopy in E; now inversion E). subst err.
  simpl in Hio. subst h'.
  destruct (ferr f); [reflexivity |]. simpl.
  assert (Hsum : Hash_Sum (Hash_Write (Hash_New i) (concat (fchunks f))) []
                 = digest i (concat (fchunks f))) by reflexivity.
  rewrite Hsum. split; intros Hd.
  - rewrite (proj2 (ConstantTimeCompare_1_iff _ _) Hd). reflexivity.
  - destruct (Z.eqb_spec (Subtle.ConstantTimeCompare (digest i (concat (fchunks f))) (c0 :: cs)) 1)
      as [E1 | E1]; [| reflexivity].
    apply ConstantTimeCompare_1_iff in E1. contradiction.
Qed.

Lemma Check_no_checksum w s path :
  Checksum s = [] -> Check w s path = ((false, Some ErrSecureConfigNoChecksum), s).
Proof. intros H. unfold Check. now rewrite H. Qed.

Lemma Check_no_hash w s path :
  Checksum s <> [] -> SecureHash s = None ->
  Check w s path = ((false, Some ErrSecureConfigNoHash), s).
Proof.
  intros Hc Hh. unfold Check. rewrite Hh.
  destruct (Checksum s); [contradiction | reflexivity].
Qed.

(** C4 (the code departs from the claim).  A [SecureConfig] on which
    [Check] has run once holds a hash object that has already absorbed the
    file.  On it, [Check] reports a mismatch although the digest of the
    file under the configured hash is the configured checksum: the digest it
    compares is that of the file written twice. *)
Theorem Check_mismatch_on_used_hash :
  osOpen CheckSample.w "./plugin" = inr {| fchunks := [Sample.binary]; ferr := None |}
  /\ digest Sample.fnv32a Sample.binary = Checksum CheckSample.sc1
  /\ fst (Check CheckSample.w CheckSample.sc1 "./plugin") = (false, None)
  /\ digest Sample.fnv32a (Sample.binary ++ Sample.binary) <> Checksum CheckSample.sc1.
Proof. vm_compute. repeat split; try reflexivity. discriminate. Qed.

(** C5 (the code departs from the claim).  Two calls of [Check] in
    succession, same configuration, same unchanged file: the first reports
    a match, the second a mismatch. *)
Theorem Check_twice_differs :
  let '(r1, s1) := Check CheckSample.w CheckSample.sc "./plugin" in
  let '(r2, s2) := Check CheckSample.w s1 "./plugin" in
  r1 = (true, None) /\ r2 = (false, None) /\ Checksum s1 = Checksum CheckSample.sc.
Proof. vm_compute. repeat split; reflexivity. Qed.

(** ** The port range: [NewClient] and the environment [Start] exports *)

Lemma NewClient_config_ports g :
  MinPort (NewClient_config g)
  = (if ((MinPort g =? 0) && (MaxPort g =? 0))%N then 10000%N else MinPort g)
  /\ MaxPort (NewClient_config g)
     = (if ((MinPort g =? 0) && (MaxPort g =? 0))%N then 25000%N else MaxPort g).
Proof.
  unfold NewClient_config.
  destruct ((MinPort g =? 0) && (MaxPort g =? 0))%N;
    destruct (StartTimeout _ =? 0)%Z; split; reflexivity.
Qed.

Lemma NewClient_config_of gl g : config (fst (NewClient gl g)) = NewClient_config g.
Proof. unfold NewClient. destruct (Managed _); reflexivity. Qed.

Lemma certOffered_long parts p :
  certOffered parts = true -> parts !! 5%nat = Some p -> (50 < String.length p)%nat.
Proof.
  unfold certOffered. intros H E. rewrite E in H.
  apply andb_true_iff in H as [_ H]. now apply Nat.ltb_lt.
Qed.

(** Close a goal [exists l, t = tr s ++ l /\ Forall P l] where [t] is [tr s]
    with events appended; [tac] proves what [P] asks of an event. *)
Ltac ev_done tac :=
  rewrite <- ?app_assoc;
  first
    [ exists []; split; [symmetry; apply app_nil_r | constructor]
    | eexists; split;
      [ reflexivity
      | repeat (apply Forall_app; split); try assumption;
        repeat match goal with
               | |- Forall _ (_ :: _) => constructor
               | |- Forall _ [] => constructor
               end;
        first [exact I | tac] ] ].

Lemma handshake_events w r line s res s' :
  handshake w r line s = (res, s') ->
  exists l, tr s' = tr s ++ l /\ Forall handshakeEvent l.
Proof.
  unfold handshake. intros H. go_run H;
    try match goal with
        | L : loadServerCert _ _ _ = _ |- _ =>
            apply loadServerCert_frame in L as [L _]; cbn [cl tr] in L
        end;
    inversion H; subst; cbn [cl tr];
    try match goal with L : tr _ = _ |- _ => rewrite L end;
    ev_done ltac:(simpl; eapply certOffered_long; eassumption).
Qed.

Lemma awaitHandshake_events w r s res s' :
  awaitHandshake w r s = (res, s') ->
  exists l, tr s' = tr s ++ l /\ Forall handshakeEvent l.
Proof.
  unfold awaitHandshake. intros H. go_run H;
    try match goal with
        | L : handshake _ _ _ _ = _ |- _ =>
            apply handshake_events in L as (l & L & Hl); cbn [cl tr] in L
        end;
    inversion H; subst; cbn [cl tr];
    try match goal with L : tr _ = _ |- _ => rewrite L end;
    ev_done fail.
Qed.

Lemma obtainRunner_events w al cmd s res s' :
  obtainRunner w al cmd s = (res, s') ->
  (exists l, tr s' = tr s ++ l /\ Forall handshakeEvent l)
  /\ (forall r cmd', res = Ok (r, cmd') -> incl (Env cmd) (Env cmd')).
Proof.
  unfold obtainRunner. intros H. go_run H; inversion H; subst; cbn [cl tr];
    (split;
     [ ev_done fail
     | intros r' cmd' E; inversion E; subst; simpl;
       first [apply incl_refl | apply incl_appl, incl_refl] ]).
Qed.

Lemma handshakeEvent_startEvent g l :
  Forall handshakeEvent l -> Forall (startEvent g) l.
Proof.
  intros H. eapply Forall_impl; [exact H |]. intros [] He; simpl in *; tauto.
Qed.

Ltac incl_tac :=
  first [ apply incl_refl
        | apply incl_appl; incl_tac
        | apply incl_appr; incl_tac ].

(** Whatever way [Start] ends, the only command it starts a runner with
    has the four entries of [env] in its environment, and the only
    certificates it loads are fields longer than 50 bytes. *)
Lemma Start_events w s res s' :
  Start w s = (res, s') ->
  exists l, tr s' = tr s ++ l /\ Forall (startEvent (config (cl s))) l.
Proof.
  unfold Start. intros H. go_run H;
    repeat match goal with
      | L : obtainRunner _ _ _ _ = _ |- _ =>
          apply obtainRunner_events in L as [(lo & L & Hlo) Hincl];
          cbn [cl tr] in L;
          apply (handshakeEvent_startEvent (config (cl s))) in Hlo
      | L : awaitHandshake _ _ _ = _ |- _ =>
          apply awaitHandshake_events in L as (la & L & Hla);
          cbn [cl tr] in L;
          apply (handshakeEvent_startEvent (config (cl s))) in Hla
      end;
    inversion H; subst; cbn [cl tr];
    repeat match goal with L : tr _ = _ |- _ => rewrite L; clear L end;
    ev_done ltac:(simpl; eexists;
                  (eapply incl_tran; [| eapply Hincl; reflexivity]);
                  unfold startEnv; simpl; incl_tac).
Qed.

(** In any run of [Start], a field handed to [loadServerCert] is longer
    than 50 bytes. *)
Lemma Start_loads_only_long_fields w s res s' cert :
  Start w s = (res, s') ->
  In (EvLoadServerCert cert) (newEvents s s') ->
  (50 < String.length cert)%nat.
Proof.
  intros H Hin. apply Start_events in H as (l & Hl & Hall).
  rewrite (newEvents_app _ _ _ Hl) in Hin.
  rewrite Forall_forall in Hall. apply list_elem_of_In in Hin.
  exact (Hall _ Hin).
Qed.

Lemma Start_runner_env w s res s' name cmd :
  Start w s = (res, s') ->
  In (EvRunnerStart name cmd) (newEvents s s') ->
  In ("PLUGIN_MIN_PORT=" +:+ fmtUint (MinPort (config (cl s)))) (Env cmd)
  /\ In ("PLUGIN_MAX_PORT=" +:+ fmtUint (MaxPort (config (cl s)))) (Env cmd).
Proof.
  intros H Hin. apply Start_events in H as (l & Hl & Hall).
  rewrite (newEvents_app _ _ _ Hl) in Hin.
  rewrite Forall_forall in Hall. apply list_elem_of_In in Hin.
  apply Hall in Hin. simpl in Hin.
  destruct Hin as [versions Hincl]. split; apply Hincl; simpl; auto.
Qed.

(** C10.  [NewClient] writes the default range 10000-25000 only when both
    ports are zero; when one of them is not zero both are left as given, and
    every runner [Start] then starts is given the zero one as [0] in
    [PLUGIN_MAX_PORT] (or [PLUGIN_MIN_PORT]). *)
Theorem NewClient_ports_exported (gl : Globals) (g : ClientConfig) :
  let c := fst (NewClient gl g) in
  (MinPort g = 0%N -> MaxPort g = 0%N ->
   MinPort (config c) = 10000%N /\ MaxPort (config c) = 25000%N)
  /\ (MinPort g <> 0%N \/ MaxPort g <> 0%N ->
      MinPort (config c) = MinPort g /\ MaxPort (config c) = MaxPort g)
  /\ (MinPort g <> 0%N -> MaxPort g = 0%N ->
      forall w t res s' name cmd,
        Start w {| cl := c; tr := t |} = (res, s') ->
        In (EvRunnerStart name cmd) (newEvents {| cl := c; tr := t |} s') ->
        In "PLUGIN_MAX_PORT=0" (Env cmd)
        /\ In ("PLUGIN_MIN_PORT=" +:+ fmtUint (MinPort g)) (Env cmd))
  /\ (MinPort g = 0%N -> MaxPort g <> 0%N ->
      forall w t res s' name cmd,
        Start w {| cl := c; tr := t |} = (res, s') ->
        In (EvRunnerStart name cmd) (newEvents {| cl := c; tr := t |} s') ->
        In "PLUGIN_MIN_PORT=0" (Env cmd)
        /\ In ("PLUGIN_MAX_PORT=" +:+ fmtUint (MaxPort g)) (Env cmd)).
Proof.
  intros c.
  assert (Hkeep : MinPort g <> 0%N \/ MaxPort g <> 0%N ->
                  MinPort (config c) = MinPort g /\ MaxPort (config c) = MaxPort g).
  { intros Hnz. subst c. rewrite NewClient_config_of.
    destruct (NewClient_config_ports g) as [-> ->].
    destruct (N.eqb_spec (MinPort g) 0), (N.eqb_spec (MaxPort g) 0); simpl;
      try (split; reflexivity).
    destruct Hnz; contradiction. }
  split; [| split; [exact Hkeep | split]].
  - intros H1 H2. subst c. rewrite NewClient_config_of.
    destruct (NewClient_config_ports g) as [-> ->]. rewrite H1, H2. split; reflexivity.
  - intros Hmin Hmax w t res s' name cmd Hs Hin.
    destruct (Hkeep (or_introl Hmin)) as [Emin Emax].
    destruct (Start_runner_env _ _ _ _ _ _ Hs Hin) as [H1 H2]. cbn [cl] in H1, H2.
    rewrite Emin in H1. rewrite Emax, Hmax in H2. split; assumption.
  - intros Hmin Hmax w t res s' name cmd Hs Hin.
    destruct (Hkeep (or_intror Hmax)) as [Emin Emax].
    destruct (Start_runner_env _ _ _ _ _ _ Hs Hin) as [H1 H2]. cbn [cl] in H1, H2.
    rewrite Emin, Hmin in H1. rewrite Emax in H2. split; assumption.
Qed.

Lemma NewClient_ports_exported_witness :
  MaxPort (config (cl (Sample.fresh PortSample.onlyMin))) = 0%N
  /\ In (EvRunnerStart "plugin" PortSample.started)
        (tr (snd (Start PortSample.w (Sample.fresh PortSample.onlyMin))))
  /\ In "PLUGIN_MAX_PORT=0" (Env PortSample.started).
Proof.
  destruct (NewClient_ports_exported Sample.noGlobals PortSample.onlyMin)
    as (_ & Hkeep & Hmin & _).
  assert (Hnz : MinPort PortSample.onlyMin <> 0%N) by discriminate.
  split; [| split].
  - apply (Hkeep (or_introl Hnz)).
  - vm_compute. left. reflexivity.
  - refine (proj1 (Hmin Hnz eq_refl PortSample.w []
                     (fst (Start PortSample.w (Sample.fresh PortSample.onlyMin)))
                     (snd (Start PortSample.w (Sample.fresh PortSample.onlyMin)))
                     "plugin" PortSample.started _ _)).
    + apply surjective_pairing.
    + vm_compute. left. reflexivity.
Defined.

(** ** [Start] on a started client *)

Lemma awaitHandshake_caches w r s a s' :
  awaitHandshake w r s = (Ok a, s') -> address (cl s') = Some a.
Proof.
  unfold awaitHandshake. intros H. go_run H; inversion H; subst; reflexivity.
Qed.

(** A successful [Start] leaves the address it returns in [c.address]. *)
Lemma Start_caches w s a s' :
  Start w s = (Ok a, s') -> address (cl s') = Some a.
Proof.
  unfold Start. intros H. go_unfold H.
  destruct (address (cl s)) eqn:Ea; go_unfold H.
  - inversion H; subst. exact Ea.
  - go_run H;
      match goal with
      | L : awaitHandshake _ _ _ = _ |- _ =>
          inversion H; subst; apply awaitHandshake_caches in L; exact L
      end.
Qed.

(** C7.  After a successful [Start], another [Start] (whatever the world
    does by then) returns the same address, leaves the client as it was
    and does nothing outside it: no runner is created or started. *)
Theorem Start_idempotent w s a s' :
  Start w s = (Ok a, s') ->
  forall w', Start w' s' = (Ok a, s')
             /\ newEvents s' (snd (Start w' s')) = [].
Proof.
  intros H w'. apply Start_caches in H.
  assert (E : Start w' s' = (Ok a, s')).
  { unfold Start, bind, get. rewrite H. reflexivity. }
  split; [exact E |]. rewrite E. simpl.
  apply (newEvents_app s' s' []). now rewrite app_nil_r.
Qed.

Lemma first_Start_sample :
  Start StartSample.w StartSample.s0 = (Ok StartSample.addr, StartSample.s1).
Proof.
  assert (E : fst (Start StartSample.w StartSample.s0) = Ok StartSample.addr)
    by (vm_compute; reflexivity).
  pose proof (surjective_pairing (Start StartSample.w StartSample.s0)) as P.
  rewrite E in P. exact P.
Qed.

Lemma Start_idempotent_witness :
  Start (Sample.sampleWorld SigTimeout) StartSample.s1
  = (Ok StartSample.addr, StartSample.s1).
Proof.
  exact (proj1 (Start_idempotent StartSample.w StartSample.s0 StartSample.addr
                  StartSample.s1 first_Start_sample
                  (Sample.sampleWorld SigTimeout))).
Defined.

(** ** The sixth field of the handshake line *)









(** ** [Kill] *)

Lemma Start_cached w s a : address (cl s) = Some a -> Start w s = (Ok a, s).
Proof. intros H. unfold Start, bind, get. now rewrite H. Qed.

Lemma Kill_run w s r res s' :
  runner (cl s) = Some r -> rID r <> EmptyString ->
  Kill w s = (res, s') ->
  res = Ok tt
  /\ tr s' = tr s ++ closeAttempt w (cl s) ++ afterClose r (graceful w (cl s))
                  ++ cleanupEvents (socketDir (unixSocketCfg (cl s)))
  /\ runner (cl s') = None
  /\ clientWaitGroup (cl s') = 0%nat.
Proof.
  intros Hr Hid H. unfold Kill in H. go_unfold H. rewrite Hr in H.
  apply String.eqb_neq in Hid. rewrite Hid in H.
  unfold closeAttempt, afterClose, graceful, dispensed, cleanupEvents, forceKillEvents.
  unfold closeClient, Client_Client, forceKill, killCleanup in H. go_unfold H.
  destruct (String.eqb (socketDir (unixSocketCfg (cl s))) EmptyString) eqn:Ed;
    cbn [negb] in H;
    (destruct (address (cl s)) as [a |] eqn:Ea;
     [rewrite (Start_cached w s a Ea) in H |]);
    go_run H; inversion H; subst; cbn [cl tr isSet negb app];
    rewrite <- ?app_assoc; repeat split; reflexivity.
Qed.

(** C8, as the code has it.  For a client whose runner is there and has
    an identity ([Kill] returns at once otherwise), [Kill] first tries to close the RPC client
    when there is an address; after a close without error it waits for the
    process to exit within the grace window of two seconds; it kills the
    runner when the window runs out, when the close attempt failed, and
    when there was no address to close; whichever way it went it then waits
    for the goroutines, removes the socket directory if there is one, and
    clears the runner, so that another [Kill] does nothing. *)
Theorem Kill_graceful_then_forced w s r :
  runner (cl s) = Some r -> rID r <> EmptyString ->
  let s' := snd (Kill w s) in
  let dir := socketDir (unixSocketCfg (cl s)) in
  fst (Kill w s) = Ok tt
  /\ newEvents s s'
     = closeAttempt w (cl s) ++ afterClose r (graceful w (cl s)) ++ cleanupEvents dir
  /\ graceWindow = (2 * Second)%Z
  /\ (In (EvRunnerKill (rName r)) (newEvents s s')
      <-> graceful w (cl s) = false \/ rExitsWithin r graceWindow = false)
  /\ (dir <> EmptyString -> In (EvRemoveAll dir) (newEvents s s'))
  /\ runner (cl s') = None
  /\ (forall w', Kill w' s' = (Ok tt, s')).
Proof.
  intros Hr Hid s' dir.
  destruct (Kill_run w s r (fst (Kill w s)) s' Hr Hid (surjective_pairing _))
    as (Hres & Htr & Hrun & _).
  apply newEvents_app in Htr. fold dir in Htr.
  split; [exact Hres |]. split; [exact Htr |]. split; [reflexivity |].
  split; [| split; [| split]].
  - rewrite Htr, !in_app_iff. unfold closeAttempt, afterClose, cleanupEvents, forceKillEvents.
    destruct (graceful w (cl s)), (rExitsWithin r graceWindow);
      destruct (address (cl s)), (client (cl s)), (dispensed w (cl s)) as [? | p];
      try destruct (cpClose p); destruct (rKill r); destruct (String.eqb dir EmptyString);
      simpl; intuition (try discriminate; try congruence).
  - intros Hd. rewrite Htr, !in_app_iff. right. right.
    unfold cleanupEvents. apply String.eqb_neq in Hd. rewrite Hd. simpl. auto.
  - exact Hrun.
  - intros w'. unfold Kill, bind, get. cbn [cl]. rewrite Hrun. reflexivity.
Qed.

Lemma Kill_graceful_then_forced_witness :
  newEvents StartSample.s1 (snd (Kill StartSample.w StartSample.s1))
  = [EvDial; EvClientClose 1; EvAwaitExit 2000000000;
     EvLog LevelDebug "plugin exited"; EvWaitGroupWait]
  /\ runner (cl (snd (Kill StartSample.w StartSample.s1))) = None.
Proof.
  assert (Hr : runner (cl StartSample.s1)
               = Some (Sample.sampleRunner (SigLine "1|1|tcp|127.0.0.1:1234|grpc")))
    by (vm_compute; reflexivity).
  assert (Hid : rID (Sample.sampleRunner (SigLine "1|1|tcp|127.0.0.1:1234|grpc"))
                <> EmptyString) by discriminate.
  destruct (Kill_graceful_then_forced StartSample.w StartSample.s1 _ Hr Hid)
    as (_ & Htr & _ & _ & _ & Hrun & _).
  split; [| exact Hrun].
  rewrite Htr. vm_compute. reflexivity.
Defined.

(** C8, as stated, fails for a started client whose runner reports no
    identity.  [Start] never asks the runner for its identity: with a
    [RunnerFunc] whose runner has none it succeeds, the client holds an
    address, the socket directory it made and four goroutines to wait for.
    [Kill] on this client returns at once: it does not close the client,
    does not wait, kills nothing, removes no directory and keeps the
    runner. *)
Lemma Kill_skips_runner_without_ID :
  fst (Start NoIDSample.w NoIDSample.s0)
  = Ok {| Network := "unix"; AddrString := "/tmp/plugin-dir1/sock" |}
  /\ address (cl NoIDSample.s1)
     = Some {| Network := "unix"; AddrString := "/tmp/plugin-dir1/sock" |}
  /\ option_map rID (runner (cl NoIDSample.s1)) = Some EmptyString
  /\ socketDir (unixSocketCfg (cl NoIDSample.s1)) = "/tmp/plugin-dir1"
  /\ clientWaitGroup (cl NoIDSample.s1) = 4%nat
  /\ fst (Kill NoIDSample.w NoIDSample.s1) = Ok tt
  /\ newEvents NoIDSample.s1 (snd (Kill NoIDSample.w NoIDSample.s1)) = []
  /\ option_map rID (runner (cl (snd (Kill NoIDSample.w NoIDSample.s1))))
     = Some EmptyString
  /\ clientWaitGroup (cl (snd (Kill NoIDSample.w NoIDSample.s1))) = 4%nat.
Proof. vm_compute. repeat split; reflexivity. Qed.

(** ** The stderr relay *)

Lemma string_app_assoc (a b c : string) : (a +:+ b) +:+ c = a +:+ (b +:+ c).
Proof.
  induction a as [| x a IH]; [reflexivity |].
  change (String x ((a +:+ b) +:+ c) = String x (a +:+ (b +:+ c))).
  now rewrite IH.
Qed.

Lemma string_app_nil_r (a : string) : a +:+ EmptyString = a.
Proof.
  induction a as [| x a IH]; [reflexivity |].
  change (String x (a +:+ EmptyString) = String x a). now rewrite IH.
Qed.

Section RelayFacts.

Variable KV : Type.
Variable parseJSON : string -> option (Stderr.logEntry KV).
Variable flattenKVPairs : list KV -> list string.

Let relay := Stderr.relay KV parseJSON flattenKVPairs.

Lemma sunk_app (a b : list Stderr.Out) :
  Stderr.sunk (a ++ b) = Stderr.sunk a +:+ Stderr.sunk b.
Proof.
  induction a as [| [p | l m args] a IH]; simpl; [reflexivity | | exact IH].
  now rewrite IH, string_app_assoc.
Qed.

Lemma logged_app (a b : list Stderr.Out) :
  Stderr.logged (a ++ b) = Stderr.logged a ++ Stderr.logged b.
Proof.
  induction a as [| [p | l m args] a IH]; simpl; [reflexivity | exact IH |].
  now rewrite IH.
Qed.

(** Fragments of one long line, read once the relay is inside it or about
    to enter it. *)
Lemma relay_fragments (frags : list string) (last : string) rest final (b : bool) :
  b = true \/ frags <> [] ->
  exists out,
    relay b (map asPrefix frags ++ asLast last :: rest) final
    = out ++ relay false rest final
    /\ Stderr.sunk out = joined frags last +:+ Stderr.newline
    /\ Stderr.logged out = map (fun f => (LevelDebug, f, [])) (frags ++ [last]).
Proof.
  revert b. induction frags as [| f frags IH]; intros b Hb.
  - destruct Hb as [-> | Hb]; [| contradiction].
    exists [Stderr.SinkWrite last; Stderr.Log LevelDebug last [];
            Stderr.SinkWrite Stderr.newline].
    repeat split; reflexivity.
  - destruct (IH true (or_introl eq_refl)) as (out & Hrun & Hsunk & Hlog).
    exists ([Stderr.SinkWrite f; Stderr.Log LevelDebug f []] ++ out).
    split; [| split].
    + change (map asPrefix (f :: frags) ++ asLast last :: rest)
        with (asPrefix f :: (map asPrefix frags ++ asLast last :: rest)).
      unfold relay in *. cbn [Stderr.relay]. unfold Stderr.relayLine at 1.
      cbn [asPrefix Stderr.rlLine Stderr.rlIsPrefix orb negb].
      rewrite Hrun. rewrite app_nil_r. rewrite <- !app_assoc. reflexivity.
    + rewrite sunk_app, Hsunk. cbn [Stderr.sunk joined fold_right].
      now rewrite string_app_nil_r, string_app_assoc.
    + rewrite logged_app, Hlog. reflexivity.
Qed.

End RelayFacts.

Section RelayRuns.

Variable KV : Type.
Variable parseJSON : string -> option (Stderr.logEntry KV).
Variable flattenKVPairs : list KV -> list string.

Let relay := Stderr.relay KV parseJSON flattenKVPairs.

Lemma relayLine_continuation (b : bool) (r : Stderr.ReadLine) :
  snd (Stderr.relayLine KV parseJSON flattenKVPairs b r) = Stderr.rlIsPrefix r.
Proof.
  unfold Stderr.relayLine. destruct (Stderr.rlIsPrefix r), b; reflexivity.
Qed.

(** The relay over a run of reads followed by another: the second run
    starts inside a long line exactly when the last read of the first was
    a prefix. *)
Lemma relay_app (b : bool) (pre rest : list Stderr.ReadLine) final :
  relay b (pre ++ rest) final
  = relay b pre None
    ++ relay (match last pre with Some r => Stderr.rlIsPrefix r | None => b end)
         rest final.
Proof.
  revert b. induction pre as [| r pre IH]; intros b; [reflexivity |].
  unfold relay in *. cbn [app Stderr.relay].
  pose proof (relayLine_continuation b r) as Hc.
  destruct (Stderr.relayLine KV parseJSON flattenKVPairs b r) as [out c'].
  cbn [snd] in Hc. subst c'.
  rewrite IH, <- app_assoc. f_equal. f_equal.
  destruct pre as [| r' pre']; [reflexivity |].
  change (last (r :: r' :: pre')) with (last (r' :: pre')).
  destruct (last (r' :: pre')) eqn:E; [reflexivity |].
  apply last_None in E. discriminate.
Qed.

Lemma relay_after_line (pre rest : list Stderr.ReadLine) final :
  endsLine pre ->
  relay false (pre ++ rest) final = relay false pre None ++ relay false rest final.
Proof.
  intros H. rewrite relay_app. unfold endsLine in H.
  destruct (last pre); [now rewrite H | reflexivity].
Qed.

End RelayRuns.

(** C9.  In any run of [logStderr], a complete line read outside a long
    line is written to the raw sink as it is, followed by a new line, and
    only then logged: at the level of its bracketed prefix when it is not a
    structured record (warn for "[WARN] disk low", debug without one of the
    five prefixes), at debug level with its pairs flattened when it is.  A
    line longer than the buffer arrives in fragments: the raw sink receives
    their bytes in order, unchanged, then the new line, and each fragment
    is logged at debug level without being parsed.  What [logStderr] did
    for the reads before and does for the reads after is not affected. *)
Theorem logStderr_relays
    (KV : Type) (parseJSON : string -> option (Stderr.logEntry KV))
    (flattenKVPairs : list KV -> list string) :
  let logStderr := Stderr.logStderr KV parseJSON flattenKVPairs in
  (forall pre line rest final,
     endsLine pre ->
     logStderr (pre ++ asLast line :: rest) final
     = logStderr pre None
       ++ Stderr.SinkWrite line :: Stderr.SinkWrite Stderr.newline
       :: match parseJSON line with
          | None => Stderr.Log (Stderr.prefixLevel line) line []
          | Some entry =>
              Stderr.Log LevelDebug (Stderr.Message entry)
                (flattenKVPairs (Stderr.KVPairs entry))
          end
       :: logStderr rest final)
  /\ Stderr.prefixLevel "[WARN] disk low" = LevelWarn
  /\ (forall rest,
        Stderr.prefixLevel ("[TRACE]" +:+ rest) = LevelDebug
        /\ Stderr.prefixLevel ("[DEBUG]" +:+ rest) = LevelDebug
        /\ Stderr.prefixLevel ("[INFO]" +:+ rest) = LevelInfo
        /\ Stderr.prefixLevel ("[WARN]" +:+ rest) = LevelWarn
        /\ Stderr.prefixLevel ("[ERROR]" +:+ rest) = LevelError)
  /\ (forall line,
        HasPrefix line "[TRACE]" = false -> HasPrefix line "[DEBUG]" = false ->
        HasPrefix line "[INFO]" = false -> HasPrefix line "[WARN]" = false ->
        HasPrefix line "[ERROR]" = false ->
        Stderr.prefixLevel line = LevelDebug)
  /\ (forall pre frags last rest final,
        endsLine pre ->
        frags <> [] ->
        exists out,
          logStderr (pre ++ map asPrefix frags ++ asLast last :: rest) final
          = logStderr pre None ++ out ++ logStderr rest final
          /\ Stderr.sunk out = joined frags last +:+ Stderr.newline
          /\ Stderr.logged out = map (fun f => (LevelDebug, f, [])) (frags ++ [last])).
Proof.
  intros logStderr. subst logStderr. unfold Stderr.logStderr.
  split; [| split; [| split; [| split]]].
  - intros pre line rest final Hpre.
    rewrite (relay_after_line KV parseJSON flattenKVPairs pre _ final Hpre).
    f_equal. cbn [Stderr.relay].
    unfold Stderr.relayLine. cbn [asLast Stderr.rlLine Stderr.rlIsPrefix orb].
    destruct (parseJSON line); reflexivity.
  - reflexivity.
  - intros rest. destruct rest; repeat split; reflexivity.
  - intros line H1 H2 H3 H4 H5. unfold Stderr.prefixLevel.
    now rewrite H1, H2, H3, H4, H5.
  - intros pre frags last rest final Hpre Hne.
    rewrite (relay_after_line KV parseJSON flattenKVPairs pre _ final Hpre).
    destruct (relay_fragments KV parseJSON flattenKVPairs frags last rest final false
                (or_intror Hne)) as (out & Hrun & Hs & Hl).
    exists out. rewrite Hrun. auto.
Qed.

Lemma logStderr_relays_witness :
  Stderr.prefixLevel "disk low" = LevelDebug
  /\ exists out,
       Stderr.logStderr (string * string) (fun _ => None) (fun _ => [])
         ([asLast "[WARN] disk low"]
          ++ map asPrefix ["abcd"; "efgh"] ++ asLast "ij" :: []) None
       = Stderr.logStderr (string * string) (fun _ => None) (fun _ => [])
           [asLast "[WARN] disk low"] None
         ++ out
         ++ Stderr.logStderr (string * string) (fun _ => None) (fun _ => []) [] None
       /\ Stderr.sunk out = joined ["abcd"; "efgh"] "ij" +:+ Stderr.newline
       /\ Stderr.logged out
          = map (fun f => (LevelDebug, f, [])) (["abcd"; "efgh"] ++ ["ij"]).
Proof.
  destruct (logStderr_relays (string * string) (fun _ => None) (fun _ => []))
    as (_ & _ & _ & Hdefault & Hlong).
  split.
  - apply Hdefault; reflexivity.
  - apply (Hlong [asLast "[WARN] disk low"] ["abcd"; "efgh"] "ij" [] None).
    + reflexivity.
    + discriminate.
Defined.

(* ===================================================================== *)
(** * Further properties of the client *)
(* ===================================================================== *)

(** ** Version lookup and integrity check *)

Lemma checkProtoVersion_lookup_witness :
  checkProtoVersion (Sample.sampleWorld SigTimeout)
    (cl (Sample.fresh (Sample.sampleConfig Sample.v1))) "1"
  = inr (1%Z, Sample.plugins).
Proof.
  assert (Hr : rangeOK (rangeCheck (Sample.sampleWorld SigTimeout)))
    by (intros m; reflexivity).
  assert (Hm : VersionedPlugins (config (cl (Sample.fresh (Sample.sampleConfig Sample.v1))))
               = Some Sample.v1) by (vm_compute; reflexivity).
  pose proof (checkProtoVersion_lookup (Sample.sampleWorld SigTimeout)
                (cl (Sample.fresh (Sample.sampleConfig Sample.v1)))
                Sample.v1 "1" 1%Z Hr Hm eq_refl) as H.
  assert (L : Sample.v1 !! 1%Z = Some Sample.plugins) by (vm_compute; reflexivity).
  rewrite L in H. exact H.
Defined.

Lemma Check_with_new_hash_witness :
  fst (Check CheckSample.w CheckSample.sc "./plugin") = (true, None).
Proof.
  assert (Hc : Checksum CheckSample.sc <> []) by (vm_compute; discriminate).
  pose proof (Check_with_new_hash CheckSample.w CheckSample.sc Sample.fnv32a "./plugin"
                eq_refl Hc) as H.
  cbn [osOpen CheckSample.w Sample.sampleWorld ferr fchunks] in H.
  destruct H as [H _]. apply H. vm_compute. reflexivity.
Defined.

(** [Check] answers [true] only without an error, and only when what the
    hash object returns after absorbing the whole file is the configured
    checksum, byte for byte; it never changes the checksum. *)
Theorem Check_true_only_on_equal_sum (w : World) (s : SecureConfig) (path : string) :
  Checksum (snd (Check w s path)) = Checksum s
  /\ (forall e, snd (fst (Check w s path)) = Some e -> fst (fst (Check w s path)) = false)
  /\ (fst (fst (Check w s path)) = true ->
      exists h f,
        SecureHash s = Some h /\ osOpen w path = inr f /\ ferr f = None
        /\ Checksum s <> []
        /\ Hash_Sum (Hash_Write h (concat (fchunks f))) [] = Checksum s).
Proof.
  unfold Check.
  destruct (Checksum s) as [| c0 cs] eqn:Ec.
  { simpl. rewrite Ec. repeat split; try discriminate; try reflexivity. }
  cbn [length Nat.eqb].
  destruct (SecureHash s) as [h |] eqn:Eh.
  2:{ simpl. rewrite Ec. repeat split; try discriminate; try reflexivity. }
  destruct (osOpen w path) as [err | f] eqn:Eo.
  { simpl. rewrite Ec. repeat split; try discriminate; try reflexivity. }
  pose proof (ioCopy_contents h f) as Hio.
  destruct (ioCopy h f) as [h' err] eqn:E.
  assert (ferr f = err) by (unfold ioCopy in E; now inversion E). subst err.
  simpl in Hio. subst h'.
  destruct (ferr f) eqn:Ef; simpl; rewrite ?Ec.
  { repeat split; try discriminate; try reflexivity. }
  split; [reflexivity |]. split; [discriminate |].
  intros Ht. apply Z.eqb_eq in Ht. apply ConstantTimeCompare_1_iff in Ht.
  exists h, f. repeat split; try assumption; try reflexivity. discriminate.
Qed.

(** ** [NewClient] *)

Lemma NewClient_config_fields g :
  StartTimeout (NewClient_config g)
  = (if (StartTimeout g =? 0)%Z then (1 * Minute)%Z else StartTimeout g)
  /\ Stderr (NewClient_config g) = orDefault Discard (Stderr g)
  /\ SyncStdout (NewClient_config g) = orDefault Discard (SyncStdout g)
  /\ SyncStderr (NewClient_config g) = orDefault Discard (SyncStderr g)
  /\ ConfigLogger (NewClient_config g) = orDefault DefaultPluginLogger (ConfigLogger g)
  /\ Managed (NewClient_config g) = Managed g.
Proof.
  unfold NewClient_config.
  destruct ((MinPort g =? 0) && (MaxPort g =? 0))%N; cbn [StartTimeout cfg_setPorts];
    destruct (StartTimeout g =? 0)%Z; repeat split.
Qed.

(** A configuration that has all its defaults is left as it is. *)
Lemma NewClient_config_fixpoint g :
  (MinPort g <> 0%N \/ MaxPort g <> 0%N) -> StartTimeout g <> 0%Z ->
  Stderr g <> None -> SyncStdout g <> None -> SyncStderr g <> None ->
  ConfigLogger g <> None ->
  NewClient_config g = g.
Proof.
  destruct g as [hs vp cmd re rf sec tls mg lo hi st e o se lg am sk us].
  cbn. intros Hp Ht He Ho Hse Hl. unfold NewClient_config. cbn.
  assert (Hports : ((lo =? 0) && (hi =? 0))%N = false).
  { destruct (N.eqb_spec lo 0), (N.eqb_spec hi 0); try reflexivity.
    destruct Hp; contradiction. }
  rewrite Hports. cbn. apply Z.eqb_neq in Ht. rewrite Ht. cbn.
  destruct e, o, se, lg; try contradiction. reflexivity.
Qed.

(** After [NewClient] the configuration has a start timeout, the three
    sinks and a logger, and ports that are not both zero; what the caller
    had set is kept; applying the defaults again changes nothing; the
    client is registered as managed exactly when [Managed] is set, and
    [Killed] and the clients registered before are left alone. *)
Theorem NewClient_establishes_defaults (gl : Globals) (g : ClientConfig) :
  let c := fst (NewClient gl g) in
  let gl' := snd (NewClient gl g) in
  StartTimeout (config c) <> 0%Z
  /\ Stderr (config c) <> None /\ SyncStdout (config c) <> None
  /\ SyncStderr (config c) <> None /\ ConfigLogger (config c) <> None
  /\ logger c = ConfigLogger (config c)
  /\ (MinPort (config c) <> 0%N \/ MaxPort (config c) <> 0%N)
  /\ (StartTimeout g <> 0%Z -> StartTimeout (config c) = StartTimeout g)
  /\ (forall x, Stderr g = Some x -> Stderr (config c) = Some x)
  /\ (forall x, ConfigLogger g = Some x -> ConfigLogger (config c) = Some x)
  /\ NewClient_config (config c) = config c
  /\ Killed gl' = Killed gl
  /\ managedClients gl' = managedClients gl ++ (if Managed g then [c] else []).
Proof.
  intros c gl'.
  assert (Hc : config c = NewClient_config g) by apply NewClient_config_of.
  destruct (NewClient_config_fields g) as (Ft & Fe & Fo & Fse & Fl & Fm).
  destruct (NewClient_config_ports g) as [Plo Phi].
  assert (H1 : StartTimeout (config c) <> 0%Z).
  { rewrite Hc, Ft. destruct (Z.eqb_spec (StartTimeout g) 0); [discriminate | assumption]. }
  assert (H2 : Stderr (config c) <> None)
    by (rewrite Hc, Fe; destruct (Stderr g); discriminate).
  assert (H3 : SyncStdout (config c) <> None)
    by (rewrite Hc, Fo; destruct (SyncStdout g); discriminate).
  assert (H4 : SyncStderr (config c) <> None)
    by (rewrite Hc, Fse; destruct (SyncStderr g); discriminate).
  assert (H5 : ConfigLogger (config c) <> None)
    by (rewrite Hc, Fl; destruct (ConfigLogger g); discriminate).
  assert (H6 : MinPort (config c) <> 0%N \/ MaxPort (config c) <> 0%N).
  { rewrite Hc, Plo, Phi.
    destruct (N.eqb_spec (MinPort g) 0), (N.eqb_spec (MaxPort g) 0); cbn;
      first [left; assumption | right; assumption | left; discriminate]. }
  split; [exact H1 |]. split; [exact H2 |]. split; [exact H3 |].
  split; [exact H4 |]. split; [exact H5 |].
  split; [subst c; unfold NewClient; destruct (Managed _); reflexivity |].
  split; [exact H6 |].
  split; [intros Hn; rewrite Hc, Ft; apply Z.eqb_neq in Hn; now rewrite Hn |].
  split; [intros x Hx; now rewrite Hc, Fe, Hx |].
  split; [intros x Hx; now rewrite Hc, Fl, Hx |].
  split; [now apply NewClient_config_fixpoint |].
  subst c gl'. unfold NewClient. rewrite Fm.
  destruct (Managed g); cbn [fst snd Killed managedClients];
    split; try reflexivity. now rewrite app_nil_r.
Qed.

(** ** [Kill] *)

(** [Kill] only touches the dispensed client, the runner, the wait group
    and the kill flag: the configuration, the address, what was negotiated
    and the socket configuration are as before. *)
Lemma Kill_frame w s res s' :
  Kill w s = (res, s') ->
  config (cl s') = config (cl s) /\ address (cl s') = address (cl s)
  /\ negotiatedVersion (cl s') = negotiatedVersion (cl s)
  /\ negotiatedPlugins (cl s') = negotiatedPlugins (cl s)
  /\ unixSocketCfg (cl s') = unixSocketCfg (cl s)
  /\ exited (cl s') = exited (cl s).
Proof.
  intros H. unfold Kill in H. go_unfold H.
  destruct (runner (cl s)) as [r |] eqn:Hr; go_unfold H.
  2:{ inversion H; subst. repeat split. }
  destruct (String.eqb (rID r) EmptyString) eqn:Hid; go_unfold H.
  { inversion H; subst. repeat split. }
  unfold closeClient, Client_Client, forceKill, killCleanup in H. go_unfold H.
  destruct (String.eqb (socketDir (unixSocketCfg (cl s))) EmptyString) eqn:Ed;
    cbn [negb] in H;
    (destruct (address (cl s)) as [a |] eqn:Ea;
     [rewrite (Start_cached w s a Ea) in H |]);
    go_run H; inversion H; subst; cbn [cl tr];
    repeat split; try reflexivity; try assumption; auto.
Qed.

(** Once started, a client stays started: after [Kill] the address is
    still cached, so [Start] returns it again and starts nothing (the
    client cannot be started again, even if it was killed). *)
Theorem Start_after_Kill_returns_cached_address w s a :
  address (cl s) = Some a ->
  forall w', Start w' (snd (Kill w s)) = (Ok a, snd (Kill w s))
             /\ config (cl (snd (Kill w s))) = config (cl s)
             /\ negotiatedVersion (cl (snd (Kill w s))) = negotiatedVersion (cl s)
             /\ negotiatedPlugins (cl (snd (Kill w s))) = negotiatedPlugins (cl s).
Proof.
  intros Ha w'.
  destruct (Kill_frame w s _ _ (surjective_pairing (Kill w s)))
    as (Hc & Hadd & Hv & Hp & _).
  split; [| auto].
  apply Start_cached. now rewrite Hadd.
Qed.

Lemma Start_after_Kill_returns_cached_address_witness :
  Start (Sample.sampleWorld SigTimeout) (snd (Kill StartSample.w StartSample.s1))
  = (Ok StartSample.addr, snd (Kill StartSample.w StartSample.s1)).
Proof.
  assert (Ha : address (cl StartSample.s1) = Some StartSample.addr)
    by (vm_compute; reflexivity).
  exact (proj1 (Start_after_Kill_returns_cached_address StartSample.w StartSample.s1
                  StartSample.addr Ha (Sample.sampleWorld SigTimeout))).
Defined.

Lemma Kill_noop_without_ID w s : ID (cl s) = EmptyString -> Kill w s = (Ok tt, s).
Proof.
  unfold ID, Kill, bind, get. destruct (runner (cl s)) as [r |]; [| reflexivity].
  intros ->. reflexivity.
Qed.

(** [Kill] does nothing, however often it is called, on a client that has
    no runner or whose runner reports no identity; in particular on a
    client that [NewClient] has just returned. *)
Theorem Kill_without_process_is_noop w s :
  (runner (cl s) = None \/ exists r, runner (cl s) = Some r /\ rID r = EmptyString) ->
  Kill w s = (Ok tt, s)
  /\ forall gl g t, Kill w {| cl := fst (NewClient gl g); tr := t |}
                    = (Ok tt, {| cl := fst (NewClient gl g); tr := t |}).
Proof.
  intros H. split.
  - apply Kill_noop_without_ID. unfold ID.
    destruct H as [-> | (r & -> & Hid)]; [reflexivity | exact Hid].
  - intros gl g t. apply Kill_noop_without_ID. unfold NewClient.
    destruct (Managed _); reflexivity.
Qed.

Lemma Kill_without_process_is_noop_witness :
  Kill (Sample.sampleWorld SigTimeout) (Sample.fresh (Sample.sampleConfig Sample.v1))
  = (Ok tt, Sample.fresh (Sample.sampleConfig Sample.v1)).
Proof.
  apply (proj1 (Kill_without_process_is_noop (Sample.sampleWorld SigTimeout)
                  (Sample.fresh (Sample.sampleConfig Sample.v1))
                  (or_introl eq_refl))).
Defined.

(** ** [Client.Client] *)

(** Once [Client] has returned a protocol client, every later call
    returns the same one without dialing or starting anything. *)
Theorem Client_returns_cached_client w s p s' :
  Client_Client w s = (Ok p, s') ->
  forall w', Client_Client w' s' = (Ok p, s').
Proof.
  intros H w'. unfold Client_Client in H. go_unfold H.
  destruct (Start w s) as [[a | e | m] s1] eqn:Es; go_unfold H; try discriminate.
  apply Start_caches in Es.
  assert (Hs' : address (cl s') = Some a /\ client (cl s') = Some p).
  { destruct (client (cl s1)) as [p1 |] eqn:Ec; go_unfold H.
    - inversion H; subst. auto.
    - destruct (newGRPCClient w (cl s1)); go_unfold H; inversion H; subst.
      cbn. auto. }
  destruct Hs' as [Ha Hc].
  unfold Client_Client. cbv beta iota delta [bind get ret].
  rewrite (Start_cached w' s' a Ha). cbn [cl]. rewrite Hc. reflexivity.
Qed.

Lemma Client_returns_cached_client_witness :
  Client_Client (Sample.sampleWorld SigTimeout)
    (snd (Client_Client StartSample.w StartSample.s0))
  = (Ok {| cpID := 1; cpClose := None |}, snd (Client_Client StartSample.w StartSample.s0)).
Proof.
  assert (E : fst (Client_Client StartSample.w StartSample.s0)
              = Ok {| cpID := 1; cpClose := None |}) by (vm_compute; reflexivity).
  pose proof (surjective_pairing (Client_Client StartSample.w StartSample.s0)) as P.
  rewrite E in P.
  exact (Client_returns_cached_client _ _ _ _ P (Sample.sampleWorld SigTimeout)).
Defined.

(** ** Errors of [Start] before a runner exists *)

(** On a client without an address, a configuration that does not set
    exactly one of [Cmd], [Reattach] and [RunnerFunc], or that sets both
    [SecureConfig] and [Reattach], makes [Start] return the corresponding
    error and nothing else happens: the client is as before and there is
    no event. *)
Theorem Start_rejects_bad_config w s :
  address (cl s) = None ->
  ((countSet (ConfigCmd (config (cl s))) + countSet (Reattach (config (cl s)))
    + countSet (RunnerFunc (config (cl s))))%nat <> 1%nat ->
   Start w s = (Err ErrExactlyOne, s))
  /\ ((countSet (ConfigCmd (config (cl s))) + countSet (Reattach (config (cl s)))
       + countSet (RunnerFunc (config (cl s))))%nat = 1%nat ->
      ConfigSecure (config (cl s)) <> None -> Reattach (config (cl s)) <> None ->
      Start w s = (Err ErrSecureConfigAndReattach, s)).
Proof.
  intros Ha. split.
  - intros Hn. unfold Start. cbv beta iota delta [bind get]. rewrite Ha.
    apply Nat.eqb_neq in Hn. rewrite Hn. reflexivity.
  - intros Hn Hs Hr. unfold Start. cbv beta iota delta [bind get]. rewrite Ha.
    rewrite Hn. cbn [Nat.eqb negb].
    destruct (ConfigSecure (config (cl s))); [| contradiction].
    destruct (Reattach (config (cl s))); [| contradiction]. reflexivity.
Qed.

Lemma Start_rejects_bad_config_witness :
  Start (Sample.sampleWorld SigTimeout)
    (Sample.fresh (cfg_setCmd None (Sample.sampleConfig Sample.v1)))
  = (Err ErrExactlyOne, Sample.fresh (cfg_setCmd None (Sample.sampleConfig Sample.v1))).
Proof.
  apply (proj1 (Start_rejects_bad_config (Sample.sampleWorld SigTimeout)
                  (Sample.fresh (cfg_setCmd None (Sample.sampleConfig Sample.v1)))
                  eq_refl)).
  vm_compute. discriminate.
Defined.

(** When the configuration is otherwise valid and the integrity check
    does not pass, [Start] fails before anything exists: with the error of
    [Check] wrapped as "error verifying checksum", or with
    [ErrChecksumsDoNotMatch] when [Check] found a mismatch; no runner is
    created or started, no directory is made, and the address stays unset. *)
Theorem Start_checksum_gate w s sc res s' :
  address (cl s) = None ->
  (countSet (ConfigCmd (config (cl s))) + countSet (Reattach (config (cl s)))
   + countSet (RunnerFunc (config (cl s))))%nat = 1%nat ->
  Reattach (config (cl s)) = None ->
  ConfigSecure (config (cl s)) = Some sc ->
  fst (fst (Check w sc (checkedPath (cl s)))) = false ->
  Start w s = (res, s') ->
  res = Err (match snd (fst (Check w sc (checkedPath (cl s)))) with
             | Some e => ErrVerifyingChecksum e
             | None => ErrChecksumsDoNotMatch
             end)
  /\ tr s' = tr s /\ runner (cl s') = runner (cl s) /\ address (cl s') = None.
Proof.
  intros Ha Hn Hr Hs Hf H. unfold Start in H. go_unfold H.
  rewrite Ha, Hn, Hs, Hr in H. cbn [Nat.eqb negb isSet andb] in H.
  unfold checkedPath in *.
  destruct (VersionedPlugins (config (cl s))) eqn:Ev; go_unfold H;
    cbn [config cl_setConfig ConfigSecure cfg_setVersionedPlugins ConfigCmd SkipHostEnv
         cfg_setCmd] in H; rewrite ?Hs in H;
    destruct (SkipHostEnv (config (cl s))); cbn [negb] in H;
    destruct (ConfigCmd (config (cl s))) as [cmd0 |] eqn:Ec;
    cbn [isSet default Path cmd_setStdin cmd_setEnv exec_Command option_map] in H, Hf |- *;
    go_unfold H;
    cbn [config cl_setConfig ConfigSecure cfg_setVersionedPlugins ConfigCmd cfg_setCmd
         cl_setConfig] in H; rewrite ?Hs in H;
    match type of H with
    | context [Check w sc ?p] => destruct (Check w sc p) as [[ok err] sc'] eqn:Ek
    end;
    cbn [fst snd] in Hf |- *; subst ok; go_unfold H;
    destruct err; go_unfold H; inversion H; subst; cbn [cl tr];
    repeat split; try reflexivity; cbn; assumption.
Qed.

Lemma Start_checksum_gate_witness :
  fst (Start CheckSample.w (Sample.fresh GateSample.wrongSum)) = Err ErrChecksumsDoNotMatch
  /\ tr (snd (Start CheckSample.w (Sample.fresh GateSample.wrongSum))) = [].
Proof.
  assert (Hf : fst (fst (Check CheckSample.w GateSample.sc
                           (checkedPath (cl (Sample.fresh GateSample.wrongSum))))) = false)
    by (vm_compute; reflexivity).
  destruct (Start_checksum_gate CheckSample.w (Sample.fresh GateSample.wrongSum)
              GateSample.sc _ _ eq_refl eq_refl eq_refl eq_refl Hf
              (surjective_pairing _)) as (Hres & Htr & _).
  split; [| exact Htr].
  rewrite Hres.
  assert (He : snd (fst (Check CheckSample.w GateSample.sc
                           (checkedPath (cl (Sample.fresh GateSample.wrongSum))))) = None)
    by (vm_compute; reflexivity).
  now rewrite He.
Defined.

(** ** The raw sink of [logStderr] *)

(** Whatever the lines contain and whether or not they parse as
    structured records, the raw sink of [logStderr] receives the bytes of
    every read in order, with a new line after each read that ends a line,
    and one record is logged per read (and one more when reading ends with
    an error other than end of file). *)
Theorem logStderr_raw_sink_ignores_parsing
    (KV : Type) (parseJSON : string -> option (Stderr.logEntry KV))
    (flattenKVPairs : list KV -> list string)
    (reads : list Stderr.ReadLine) (final : option string) :
  Stderr.sunk (Stderr.logStderr KV parseJSON flattenKVPairs reads final)
  = rawBytes reads
  /\ length (Stderr.logged (Stderr.logStderr KV parseJSON flattenKVPairs reads final))
     = (length reads + match final with Some _ => 1 | None => 0 end)%nat.
Proof.
  unfold Stderr.logStderr. generalize false as continuation.
  induction reads as [| [line isPrefix] rest IH]; intros b.
  - destruct final; split; reflexivity.
  - cbn [Stderr.relay rawBytes Stderr.rlLine Stderr.rlIsPrefix].
    unfold Stderr.relayLine. cbn [Stderr.rlLine Stderr.rlIsPrefix].
    destruct isPrefix, b; cbn [orb negb];
      try destruct (parseJSON line);
      rewrite sunk_app, logged_app, length_app;
      (destruct (IH true) as [I1 I2] || idtac);
      match goal with
      | |- context [Stderr.relay _ _ _ ?c rest final] =>
          destruct (IH c) as [-> ->]
      end;
      cbn [Stderr.sunk Stderr.logged length app];
      rewrite ?string_app_nil_r, ?string_app_assoc; split; reflexivity.
Qed.

(* ===================================================================== *)
(** * Properties of the gRPC server *)
(* ===================================================================== *)

(** What the loop over the plugins does on a list of entries: it calls
    the plugins in order and stops after the first one that fails. *)
Lemma registerPlugins_run (E : GRPCSrv.Env) (entries : list (string * Plugin)) :
  exists called rest,
    entries = called ++ rest
    /\ fst (GRPCSrv.registerPlugins E entries)
       = map (fun kp => GRPCSrv.PluginGRPCServer (fst kp)) called
    /\ match snd (GRPCSrv.registerPlugins E entries) with
       | None =>
           rest = []
           /\ Forall (fun kp => GRPCSrv.pluginGRPCServer E (fst kp) (snd kp) = None) called
       | Some e =>
           exists ok k p err,
             called = ok ++ [(k, p)]
             /\ e = GRPCSrv.ErrRegistering k err
             /\ GRPCSrv.pluginGRPCServer E k p = Some err
             /\ Forall (fun kp => GRPCSrv.pluginGRPCServer E (fst kp) (snd kp) = None) ok
       end.
Proof.
  induction entries as [| [k p] rest IH].
  - exists [], []. repeat split. constructor.
  - cbn [GRPCSrv.registerPlugins].
    destruct (GRPCSrv.pluginGRPCServer E k p) as [err |] eqn:Ek.
    + exists [(k, p)], rest. cbn. repeat split.
      exists [], k, p, err. repeat split; [exact Ek | constructor].
    + destruct IH as (called & rest' & Hsplit & Hev & Hres).
      destruct (GRPCSrv.registerPlugins E rest) as [evs r] eqn:Er.
      cbn [fst snd] in *.
      exists ((k, p) :: called), rest'. split; [now rewrite Hsplit |].
      split; [cbn; now rewrite Hev |].
      destruct r as [e |].
      * destruct Hres as (ok & k' & p' & err & Hc & He & Hf & Hok).
        exists ((k, p) :: ok), k', p', err. rewrite Hc. repeat split; try assumption.
        constructor; assumption.
      * destruct Hres as [Hrest Hok]. split; [exact Hrest |].
        constructor; assumption.
Qed.

Lemma pluginCalls_map (l : list (string * Plugin)) :
  GRPCSrv.pluginCalls (map (fun kp => GRPCSrv.PluginGRPCServer (fst kp)) l) = map fst l.
Proof. induction l as [| [k p] l IH]; [reflexivity |]. cbn. now rewrite IH. Qed.

Lemma Init_unfold (E : GRPCSrv.Env) (s : GRPCSrv.GRPCServer) newServer :
  GRPCSrv.Server s = Some newServer ->
  let opts := match GRPCSrv.TLS s with Some t => [GRPCSrv.Creds t] | None => [] end in
  GRPCSrv.Init E s
  = (match snd (GRPCSrv.registerPlugins E (GRPCSrv.rangePlugins E (GRPCSrv.Plugins s))) with
     | Some e => GRPCSrv.Failed e
     | None => GRPCSrv.Done
     end,
     GRPCSrv.setInit (newServer opts) s,
     GRPCSrv.NewGrpcServer opts
       :: GRPCSrv.standardServices
       ++ fst (GRPCSrv.registerPlugins E (GRPCSrv.rangePlugins E (GRPCSrv.Plugins s)))).
Proof.
  intros Hs opts. unfold GRPCSrv.Init. rewrite Hs.
  destruct (GRPCSrv.registerPlugins E _) as [evs r]. reflexivity.
Qed.

(** Whether or not a plugin fails, [Init] first makes the gRPC server,
    with transport credentials exactly when a TLS configuration is set,
    then registers health (for the service name "plugin"), reflection, the
    broker (and starts it), the controller and the stdio service, in this
    order, and only then calls the plugins; the server, the broker and the
    stdio server are set when it returns. *)
Theorem Init_registers_standard_services_first
    (E : GRPCSrv.Env) (s : GRPCSrv.GRPCServer) newServer :
  GRPCSrv.Server s = Some newServer ->
  let opts := match GRPCSrv.TLS s with Some t => [GRPCSrv.Creds t] | None => [] end in
  let '(o, s', evs) := GRPCSrv.Init E s in
  (exists calls,
     evs = [GRPCSrv.NewGrpcServer opts; GRPCSrv.RegisterHealth "plugin";
            GRPCSrv.RegisterReflection; GRPCSrv.RegisterBroker; GRPCSrv.GoBrokerRun;
            GRPCSrv.RegisterController; GRPCSrv.RegisterStdio]
           ++ map GRPCSrv.PluginGRPCServer calls)
  /\ (GRPCSrv.TLS s = None <-> opts = [])
  /\ GRPCSrv.server s' = Some (newServer opts)
  /\ GRPCSrv.broker s' = true /\ GRPCSrv.stdioServer s' = true
  /\ GRPCSrv.Plugins s' = GRPCSrv.Plugins s
  /\ (forall m, o <> GRPCSrv.Panicked m).
Proof.
  intros Hs opts. rewrite (Init_unfold E s newServer Hs). fold opts.
  destruct (registerPlugins_run E (GRPCSrv.rangePlugins E (GRPCSrv.Plugins s)))
    as (called & rest & _ & Hev & _).
  split; [| split; [| repeat split]].
  - exists (map fst called). rewrite Hev, map_map. reflexivity.
  - subst opts. destruct (GRPCSrv.TLS s); split; intros H; try discriminate; reflexivity.
  - intros m. destruct (snd (GRPCSrv.registerPlugins E _)); discriminate.
Qed.

(** [Init] succeeds exactly when no plugin of the map fails to register,
    and then every plugin has been called once: the keys called are the
    keys of the map, each once, in the order of the range. *)
Theorem Init_succeeds_iff_all_plugins_register
    (E : GRPCSrv.Env) (s : GRPCSrv.GRPCServer) newServer :
  GRPCSrv.rangePluginsOK E ->
  GRPCSrv.Server s = Some newServer ->
  let '(o, s', evs) := GRPCSrv.Init E s in
  (o = GRPCSrv.Done
   <-> forall k p, GRPCSrv.Plugins s !! k = Some p -> GRPCSrv.pluginGRPCServer E k p = None)
  /\ (o = GRPCSrv.Done ->
      GRPCSrv.pluginCalls evs ≡ₚ map fst (map_to_list (GRPCSrv.Plugins s))
      /\ NoDup (GRPCSrv.pluginCalls evs)).
Proof.
  intros Hr Hs. rewrite (Init_unfold E s newServer Hs).
  destruct (registerPlugins_run E (GRPCSrv.rangePlugins E (GRPCSrv.Plugins s)))
    as (called & rest & Hsplit & Hev & Hres).
  assert (Hcalls : GRPCSrv.pluginCalls
                     (GRPCSrv.NewGrpcServer
                        match GRPCSrv.TLS s with Some t => [GRPCSrv.Creds t] | None => [] end
                      :: GRPCSrv.standardServices
                      ++ fst (GRPCSrv.registerPlugins E
                                (GRPCSrv.rangePlugins E (GRPCSrv.Plugins s))))
                   = map fst called).
  { rewrite Hev. cbn. apply pluginCalls_map. }
  rewrite Hcalls.
  destruct (snd (GRPCSrv.registerPlugins E _)) as [e |].
  - destruct Hres as (ok & k & p & err & Hc & He & Hf & Hok).
    split; [| discriminate]. split; [discriminate |].
    intros Hall. exfalso.
    assert (Hin : (k, p) ∈ map_to_list (GRPCSrv.Plugins s)).
    { rewrite <- (Hr (GRPCSrv.Plugins s)), Hsplit, Hc.
      rewrite !elem_of_app. left. right. apply list_elem_of_singleton. reflexivity. }
    apply elem_of_map_to_list in Hin. rewrite (Hall k p Hin) in Hf. discriminate.
  - destruct Hres as [-> Hok]. rewrite app_nil_r in Hsplit. subst called.
    split.
    + split; [| reflexivity]. intros _ k p Hkp.
      apply elem_of_map_to_list in Hkp. rewrite <- (Hr _) in Hkp.
      rewrite Forall_forall in Hok. exact (Hok (k, p) Hkp).
    + intros _. split.
      * now rewrite (Hr _).
      * rewrite (Hr _). apply NoDup_fst_map_to_list.
Qed.

(** When [Init] fails, the error names a plugin of the map whose
    [GRPCServer] returned the error it carries; that plugin is the last one
    called and each plugin was called at most once; the gRPC server and the
    broker made before stay in place. *)
Theorem Init_failure_names_failing_plugin
    (E : GRPCSrv.Env) (s : GRPCSrv.GRPCServer) newServer k err :
  GRPCSrv.rangePluginsOK E ->
  GRPCSrv.Server s = Some newServer ->
  fst (fst (GRPCSrv.Init E s)) = GRPCSrv.Failed (GRPCSrv.ErrRegistering k err) ->
  (exists p, GRPCSrv.Plugins s !! k = Some p /\ GRPCSrv.pluginGRPCServer E k p = Some err)
  /\ last (GRPCSrv.pluginCalls (snd (GRPCSrv.Init E s))) = Some k
  /\ NoDup (GRPCSrv.pluginCalls (snd (GRPCSrv.Init E s)))
  /\ GRPCSrv.server (snd (fst (GRPCSrv.Init E s))) <> None
  /\ GRPCSrv.broker (snd (fst (GRPCSrv.Init E s))) = true.
Proof.
  intros Hr Hs. rewrite (Init_unfold E s newServer Hs). cbn [fst snd].
  destruct (registerPlugins_run E (GRPCSrv.rangePlugins E (GRPCSrv.Plugins s)))
    as (called & rest & Hsplit & Hev & Hres).
  intros Hf.
  destruct (snd (GRPCSrv.registerPlugins E _)) as [e |]; [| discriminate].
  inversion Hf; subst e.
  destruct Hres as (ok & k' & p & err' & Hc & He & Hfail & Hok).
  inversion He; subst k' err'.
  assert (Hcalls : GRPCSrv.pluginCalls
                     (GRPCSrv.NewGrpcServer
                        match GRPCSrv.TLS s with Some t => [GRPCSrv.Creds t] | None => [] end
                      :: GRPCSrv.standardServices
                      ++ fst (GRPCSrv.registerPlugins E
                                (GRPCSrv.rangePlugins E (GRPCSrv.Plugins s))))
                   = map fst called).
  { rewrite Hev. cbn. apply pluginCalls_map. }
  rewrite Hcalls.
  assert (Hnd : NoDup (map fst (GRPCSrv.rangePlugins E (GRPCSrv.Plugins s)))).
  { rewrite (Hr _). apply NoDup_fst_map_to_list. }
  split; [| split; [| split; [| split]]].
  - exists p. split; [| exact Hfail].
    apply elem_of_map_to_list. rewrite <- (Hr _), Hsplit, Hc.
    rewrite !elem_of_app. left. right. apply list_elem_of_singleton. reflexivity.
  - rewrite Hc, map_app. cbn. apply last_snoc.
  - rewrite Hsplit, map_app in Hnd. apply NoDup_app in Hnd. tauto.
  - discriminate.
  - reflexivity.
Qed.

Lemma SrvSample_range : GRPCSrv.rangePluginsOK SrvSample.env.
Proof. intros m. reflexivity. Qed.

Lemma Init_registers_standard_services_first_witness :
  GRPCSrv.server (snd (fst (GRPCSrv.Init SrvSample.env SrvSample.good)))
  = Some (GRPCSrv.GrpcServerOf [])
  /\ GRPCSrv.broker (snd (fst (GRPCSrv.Init SrvSample.env SrvSample.good))) = true.
Proof.
  pose proof (Init_registers_standard_services_first SrvSample.env SrvSample.good
                GRPCSrv.GrpcServerOf eq_refl) as H.
  destruct (GRPCSrv.Init SrvSample.env SrvSample.good) as [[o s'] evs].
  destruct H as (_ & _ & Hsrv & Hb & _). split; assumption.
Defined.

Lemma Init_succeeds_iff_all_plugins_register_witness :
  fst (fst (GRPCSrv.Init SrvSample.env SrvSample.good)) = GRPCSrv.Done
  /\ NoDup (GRPCSrv.pluginCalls (snd (GRPCSrv.Init SrvSample.env SrvSample.good))).
Proof.
  pose proof (Init_succeeds_iff_all_plugins_register SrvSample.env SrvSample.good
                GRPCSrv.GrpcServerOf SrvSample_range eq_refl) as H.
  assert (Ho : fst (fst (GRPCSrv.Init SrvSample.env SrvSample.good)) = GRPCSrv.Done)
    by (vm_compute; reflexivity).
  destruct (GRPCSrv.Init SrvSample.env SrvSample.good) as [[o s'] evs].
  cbn [fst snd] in *. destruct H as [_ H]. split; [exact Ho |]. exact (proj2 (H Ho)).
Defined.

Lemma Init_failure_names_failing_plugin_witness :
  exists p, GRPCSrv.Plugins SrvSample.bad !! "bad" = Some p
            /\ GRPCSrv.pluginGRPCServer SrvSample.env "bad" p = Some "no such service".
Proof.
  refine (proj1 (Init_failure_names_failing_plugin SrvSample.env SrvSample.bad
                   GRPCSrv.GrpcServerOf "bad" "no such service"
                   SrvSample_range eq_refl _)).
  vm_compute. reflexivity.
Defined.

(** ** [Stop] and [GracefulStop] *)

Lemma stopWith_run ev s srv :
  GRPCSrv.server s = Some srv ->
  GRPCSrv.stopWith ev s
  = (GRPCSrv.Done, (if GRPCSrv.broker s then GRPCSrv.setBroker false s else s),
     ev :: (if GRPCSrv.broker s then [GRPCSrv.BrokerClose] else [])).
Proof. intros H. unfold GRPCSrv.stopWith. rewrite H. now destruct (GRPCSrv.broker s). Qed.

Lemma stops_run calls s srv :
  GRPCSrv.server s = Some srv ->
  let '(o, s', evs) := GRPCSrv.stops calls s in
  o = GRPCSrv.Done
  /\ GRPCSrv.server s' = Some srv
  /\ GRPCSrv.broker s' = (GRPCSrv.broker s && match calls with [] => true | _ => false end)
  /\ length (List.filter GRPCSrv.isServerStop evs) = length calls
  /\ length (List.filter GRPCSrv.isBrokerClose evs)
     = (if GRPCSrv.broker s && match calls with [] => false | _ => true end then 1 else 0)%nat
  /\ GRPCSrv.DoneCh s' = GRPCSrv.DoneCh s /\ GRPCSrv.Plugins s' = GRPCSrv.Plugins s.
Proof.
  revert s. induction calls as [| g rest IH]; intros s Hs.
  - cbn. rewrite andb_true_r, andb_false_r. repeat split; assumption.
  - cbn [GRPCSrv.stops]. unfold GRPCSrv.Stop, GRPCSrv.GracefulStop.
    assert (E : (if g then GRPCSrv.stopWith GRPCSrv.ServerGracefulStop s
                 else GRPCSrv.stopWith GRPCSrv.ServerStop s)
                = (GRPCSrv.Done,
                   (if GRPCSrv.broker s then GRPCSrv.setBroker false s else s),
                   (if g then GRPCSrv.ServerGracefulStop else GRPCSrv.ServerStop)
                     :: (if GRPCSrv.broker s then [GRPCSrv.BrokerClose] else [])))
      by (destruct g; apply (stopWith_run _ s srv Hs)).
    rewrite E. clear E.
    set (s1 := if GRPCSrv.broker s then GRPCSrv.setBroker false s else s).
    assert (Hs1 : GRPCSrv.server s1 = Some srv) by (subst s1; now destruct (GRPCSrv.broker s)).
    assert (Hb1 : GRPCSrv.broker s1 = false)
      by (subst s1; now destruct (GRPCSrv.broker s) eqn:B).
    assert (Hd1 : GRPCSrv.DoneCh s1 = GRPCSrv.DoneCh s
                  /\ GRPCSrv.Plugins s1 = GRPCSrv.Plugins s)
      by (subst s1; now destruct (GRPCSrv.broker s)).
    specialize (IH s1 Hs1).
    destruct (GRPCSrv.stops rest s1) as [[o s2] evs'].
    destruct IH as (Ho & Hsrv & Hb & Hn & Hc & Hd & Hp).
    rewrite Hb1 in Hb, Hc. cbn [andb] in Hb, Hc.
    rewrite andb_false_r, andb_true_r.
    split; [exact Ho |]. split; [exact Hsrv |]. split; [exact Hb |].
    destruct Hd1 as [Hd1' Hp1'].
    destruct g, (GRPCSrv.broker s); cbn; rewrite ?Hn, ?Hc, Hd, Hp;
      repeat split; congruence.
Qed.

(** On a server that [Init] has set up, any run of [Stop] and
    [GracefulStop] calls returns normally, stops the gRPC server once per
    call, and closes the broker once in all: no broker is left for the
    later calls to close. *)
Theorem Stop_closes_broker_once (calls : list bool) (s : GRPCSrv.GRPCServer) srv :
  GRPCSrv.server s = Some srv ->
  GRPCSrv.broker s = true ->
  calls <> [] ->
  let '(o, s', evs) := GRPCSrv.stops calls s in
  o = GRPCSrv.Done
  /\ length (List.filter GRPCSrv.isServerStop evs) = length calls
  /\ length (List.filter GRPCSrv.isBrokerClose evs) = 1%nat
  /\ GRPCSrv.broker s' = false
  /\ GRPCSrv.server s' = Some srv.
Proof.
  intros Hs Hb Hne. pose proof (stops_run calls s srv Hs) as H.
  destruct (GRPCSrv.stops calls s) as [[o s'] evs].
  destruct H as (Ho & Hsrv & Hb' & Hn & Hc & _).
  rewrite Hb in Hb', Hc. destruct calls; [contradiction |]. cbn in Hb', Hc.
  repeat split; assumption.
Qed.

Lemma Stop_closes_broker_once_witness :
  snd (GRPCSrv.stops [false; true; false] SrvSample.initialised)
  = [GRPCSrv.ServerStop; GRPCSrv.BrokerClose; GRPCSrv.ServerGracefulStop; GRPCSrv.ServerStop]
  /\ length (List.filter GRPCSrv.isBrokerClose
               (snd (GRPCSrv.stops [false; true; false] SrvSample.initialised))) = 1%nat.
Proof.
  assert (Hs : GRPCSrv.server SrvSample.initialised = Some (GRPCSrv.GrpcServerOf []))
    by (vm_compute; reflexivity).
  assert (Hb : GRPCSrv.broker SrvSample.initialised = true) by (vm_compute; reflexivity).
  assert (Hne : [false; true; false] <> []) by discriminate.
  pose proof (Stop_closes_broker_once [false; true; false] SrvSample.initialised _
                Hs Hb Hne) as H.
  split; [vm_compute; reflexivity |].
  destruct (GRPCSrv.stops [false; true; false] SrvSample.initialised) as [[o s'] evs].
  exact (proj1 (proj2 (proj2 H))).
Defined.

(** ** [Serve] *)

(** On a server that [Init] has set up and whose [DoneCh] is open,
    [Serve] serves, logs the error of the gRPC server when there is one,
    closes [DoneCh] last and returns; any later [Serve] on the same value
    panics on closing the closed channel, so [Serve] returns normally at
    most once. *)
Theorem Serve_closes_DoneCh_once (E : GRPCSrv.Env) (s : GRPCSrv.GRPCServer) srv :
  GRPCSrv.server s = Some srv ->
  GRPCSrv.DoneCh s = GRPCSrv.ChanOpen ->
  let '(o, s', evs) := GRPCSrv.Serve E s in
  o = GRPCSrv.Done
  /\ GRPCSrv.DoneCh s' = GRPCSrv.ChanClosed
  /\ evs = GRPCSrv.ServerServe
           :: match GRPCSrv.serveErr E with
              | Some _ => [GRPCSrv.LogError "grpc server"]
              | None => []
              end
           ++ [GRPCSrv.CloseDoneCh]
  /\ (forall E',
        fst (fst (GRPCSrv.Serve E' s')) = GRPCSrv.Panicked GRPCSrv.closeOfClosedChannel
        /\ snd (fst (GRPCSrv.Serve E' s')) = s'
        /\ ~ In GRPCSrv.CloseDoneCh (snd (GRPCSrv.Serve E' s'))).
Proof.
  intros Hs Hd. unfold GRPCSrv.Serve, GRPCSrv.closeDone. rewrite Hs, Hd.
  cbn [GRPCSrv.server GRPCSrv.setDoneCh GRPCSrv.DoneCh]. rewrite Hs.
  repeat split.
  intros Hin. destruct (GRPCSrv.serveErr E'); cbn in Hin;
    intuition discriminate.
Qed.

Lemma Serve_closes_DoneCh_once_witness :
  fst (fst (GRPCSrv.Serve SrvSample.env SrvSample.initialised)) = GRPCSrv.Done
  /\ GRPCSrv.DoneCh (snd (fst (GRPCSrv.Serve SrvSample.env SrvSample.initialised)))
     = GRPCSrv.ChanClosed.
Proof.
  assert (Hs : GRPCSrv.server SrvSample.initialised = Some (GRPCSrv.GrpcServerOf []))
    by (vm_compute; reflexivity).
  assert (Hd : GRPCSrv.DoneCh SrvSample.initialised = GRPCSrv.ChanOpen)
    by (vm_compute; reflexivity).
  pose proof (Serve_closes_DoneCh_once SrvSample.env SrvSample.initialised _ Hs Hd) as H.
  destruct (GRPCSrv.Serve SrvSample.env SrvSample.initialised) as [[o s'] evs].
  destruct H as (Ho & Hc & _). split; assumption.
Defined.

(** ** [CleanupClients] *)

(** What [Kill] leaves of one client. *)
Lemma Kill_clears_ID w c :
  let s' := snd (Kill w {| cl := c; tr := [] |}) in
  ID (cl s') = EmptyString
  /\ address (cl s') = address c /\ config (cl s') = config c
  /\ (ID c <> EmptyString -> In EvWaitGroupWait (tr s'))
  /\ (ID c = EmptyString -> s' = {| cl := c; tr := [] |}).
Proof.
  intros s'. subst s'.
  destruct (Kill_frame w {| cl := c; tr := [] |} _ _ (surjective_pairing _))
    as (Hc & Ha & _).
  cbn [cl] in Hc, Ha.
  destruct (string_dec (ID c) EmptyString) as [Hid | Hid].
  - rewrite (Kill_noop_without_ID w {| cl := c; tr := [] |} Hid). cbn.
    repeat split; try assumption; try reflexivity. contradiction.
  - unfold ID in Hid. destruct (runner c) as [r |] eqn:Hr; [| contradiction].
    destruct (Kill_run w {| cl := c; tr := [] |} r _ _ Hr Hid (surjective_pairing _))
      as (_ & Htr & Hrun & _).
    split; [unfold ID; now rewrite Hrun |].
    split; [exact Ha |]. split; [exact Hc |]. split.
    + intros _. rewrite Htr. cbn [tr app]. rewrite !in_app_iff. right. right.
      left. reflexivity.
    + intros E. unfold ID in E. rewrite Hr in E. contradiction.
Qed.

(** [CleanupClients] sets [Killed] to 1 and kills every managed client:
    afterwards each of them reports no process ([ID] is empty) while its
    address and configuration are as before; a client that had a process
    was taken through the whole of [Kill], up to the wait for its
    goroutines; a client without one is left as it was. *)
Theorem CleanupClients_kills_every_managed_client (w : World) (g : Globals) :
  let g' := fst (CleanupClients w g) in
  let traces := snd (CleanupClients w g) in
  Killed g' = 1%N
  /\ length (managedClients g') = length (managedClients g)
  /\ Forall (fun c' => ID c' = EmptyString) (managedClients g')
  /\ (forall i c,
        managedClients g !! i = Some c ->
        exists c' evs,
          managedClients g' !! i = Some c' /\ traces !! i = Some evs
          /\ address c' = address c /\ config c' = config c
          /\ (ID c <> EmptyString -> In EvWaitGroupWait evs)
          /\ (ID c = EmptyString -> c' = c /\ evs = [])).
Proof.
  intros g' traces. subst g' traces. unfold CleanupClients, killAll.
  cbn [fst snd Killed managedClients]. rewrite !map_map.
  split; [reflexivity |]. split; [now rewrite length_map |]. split.
  - apply Forall_forall. intros c' Hin. apply list_elem_of_fmap in Hin.
    destruct Hin as (c & -> & _). apply (Kill_clears_ID w c).
  - intros i c Hi.
    exists (cl (snd (Kill w {| cl := c; tr := [] |}))),
           (tr (snd (Kill w {| cl := c; tr := [] |}))).
    destruct (Kill_clears_ID w c) as (_ & Ha & Hc & Hw & Hn).
    split; [now rewrite list_lookup_fmap, Hi |].
    split; [now rewrite list_lookup_fmap, Hi |].
    split; [exact Ha |]. split; [exact Hc |]. split; [exact Hw |].
    intros E. rewrite (Hn E). split; reflexivity.
Qed.

Lemma CleanupClients_kills_every_managed_client_witness :
  exists c' evs,
    managedClients (fst (CleanupClients StartSample.w CleanupSample.globals)) !! 0%nat
    = Some c'
    /\ snd (CleanupClients StartSample.w CleanupSample.globals) !! 0%nat = Some evs
    /\ In EvWaitGroupWait evs.
Proof.
  assert (Hi : managedClients CleanupSample.globals !! 0%nat = Some (cl StartSample.s1))
    by reflexivity.
  destruct (CleanupClients_kills_every_managed_client StartSample.w CleanupSample.globals)
    as (_ & _ & _ & H).
  destruct (H 0%nat _ Hi) as (c' & evs & H1 & H2 & _ & _ & H3 & _).
  exists c', evs. split; [exact H1 |]. split; [exact H2 |].
  apply H3. vm_compute. discriminate.
Defined.

(* ===================================================================== *)
(** * [Start] from the runner on *)
(* ===================================================================== *)

Lemma checkProtoVersion_1 w c v ps :
  checkProtoVersion w c "1" = inr (v, ps) ->
  v = 1%Z /\ In (1%Z, ps) (rangeCheck w (default ∅ (VersionedPlugins (config c)))).
Proof.
  unfold checkProtoVersion. change (Atoi "1") with (@inr NumError Z 1%Z).
  intros H. apply checkLoop_found in H as [-> H]. auto.
Qed.

Ltac splits := repeat match goal with |- _ /\ _ => split end.

Lemma handshake_shape w r line s res s' :
  handshake w r line s = (res, s') ->
  (exists l, tr s' = tr s ++ l /\ Forall calmEvent l)
  /\ ((cl s' = cl s /\ forall a, res <> Ok a)
      \/ exists ps,
           In (1%Z, ps) (rangeCheck w (default ∅ (VersionedPlugins (config (cl s)))))
           /\ (cl s' = cl_setNegotiated 1 (Some ps) (cl s)
               \/ exists t0 x,
                    ConfigTLS (config (cl s)) = Some t0
                    /\ cl s' = cl_setConfig
                                 (cfg_setTLS (Some (tls_setCAs [x] t0)) (config (cl s)))
                                 (cl_setNegotiated 1 (Some ps) (cl s)))).
Proof.
  unfold handshake. intros H. go_unfold H.
  destruct (checkProtoVersion w (cl s) "1") as [e | [v ps]] eqn:Ev; go_unfold H.
  { inversion H; subst. split; [ev_done fail |]. left. split; [reflexivity | discriminate]. }
  apply checkProtoVersion_1 in Ev as [-> Hin].
  go_run H;
    try match goal with
        | L : loadServerCert _ _ _ = _ |- _ =>
            apply loadServerCert_frame in L as [Ltr Lcl]; cbn [cl tr] in Ltr, Lcl
        end;
    inversion H; subst; cbn [cl tr];
    (split;
     [ try rewrite Ltr; ev_done fail
     | right; exists ps; split; [exact Hin |];
       first [ left; reflexivity
             | destruct Lcl as [Lcl | (t0 & x & Ht & _ & Lcl)];
               [ left; exact Lcl | right; exists t0, x; split; [exact Ht | exact Lcl] ] ] ]).
Qed.

Lemma awaitHandshake_shape w r s res s' :
  awaitHandshake w r s = (res, s') ->
  (exists l, tr s' = tr s ++ l ++ EvGo "drain stdout"
                       :: match res with Ok _ => [] | _ => [EvRunnerKill (rName r)] end
             /\ Forall calmEvent l)
  /\ runner (cl s') = runner (cl s)
  /\ unixSocketCfg (cl s') = unixSocketCfg (cl s)
  /\ client (cl s') = client (cl s)
  /\ address (cl s') = match res with Ok a => Some a | _ => address (cl s) end
  /\ VersionedPlugins (config (cl s')) = VersionedPlugins (config (cl s))
  /\ tlsStep (ConfigTLS (config (cl s))) (ConfigTLS (config (cl s')))
  /\ (rFirst r = SigTimeout -> res = Err ErrStartTimeout)
  /\ (rFirst r = SigExited -> res = Err ErrExitedBeforeConnect)
  /\ (forall a, res = Ok a ->
      exists ps,
        In (1%Z, ps) (rangeCheck w (default ∅ (VersionedPlugins (config (cl s)))))
        /\ negotiatedVersion (cl s') = 1%Z
        /\ negotiatedPlugins (cl s') = Some ps).
Proof.
  unfold awaitHandshake. intros H. go_run H.
  all: try match goal with
        | L : handshake _ _ _ _ = _ |- _ =>
            apply handshake_shape in L as [(l & Ltr & Hl) Hcl]; cbn [cl tr] in Ltr, Hcl;
            destruct Hcl as [[Hcl Hno] | (ps & Hin & [Hcl | (t0 & x & Ht & Hcl)])]
        end.
  all: inversion H; subst; clear H; cbn [cl tr].
  all: try rewrite Ltr.
  all: try rewrite Hcl.
  all: try (exfalso; eapply Hno; reflexivity).
  all: splits.
  all: try (intros; discriminate).
  all: try reflexivity.
  all: try (left; reflexivity).
  all: try (right; exists t0, x; split; [exact Ht | reflexivity]).
  all: try (intros ? _; exists ps; splits; [exact Hin | reflexivity | reflexivity]).
  all: first
         [ solve [ exists [EvGo "logStderr"; EvGo "wait"; EvGo "scan stdout";
                           EvLog LevelDebug "waiting for RPC address"];
                   split; [rewrite <- ?app_assoc; reflexivity | repeat constructor] ]
         | solve [ exists ([EvGo "logStderr"; EvGo "wait"; EvGo "scan stdout";
                            EvLog LevelDebug "waiting for RPC address"] ++ l);
                   split; [rewrite <- ?app_assoc; reflexivity
                          | apply Forall_app; split; [repeat constructor | exact Hl]] ]
         ].
Qed.

Lemma obtainRunner_shape w al cmd s res s' :
  obtainRunner w al cmd s = (res, s') ->
  (exists l, tr s' = tr s ++ l /\ Forall calmEvent l)
  /\ address (cl s') = address (cl s)
  /\ runner (cl s') = runner (cl s)
  /\ client (cl s') = client (cl s)
  /\ VersionedPlugins (config (cl s')) = VersionedPlugins (config (cl s))
  /\ ConfigTLS (config (cl s')) = ConfigTLS (config (cl s))
  /\ (forall r cmd', res = Ok (r, cmd') ->
      incl (Env cmd) (Env cmd') /\ Path cmd' = Path cmd
      /\ match RunnerFunc (config (cl s)) with
         | Some runnerFunc =>
             exists dir,
               MkdirTemp w (TempDir (unixSocketCfg (cl s))) "plugin-dir" = inr dir
               /\ socketDir (unixSocketCfg (cl s')) = dir
               /\ In (EnvUnixSocketDir +:+ "=" +:+ dir) (Env cmd')
               /\ runnerFunc cmd' dir = inr r
         | None =>
             NewCmdRunner w cmd = inr r /\ cmd' = cmd
             /\ unixSocketCfg (cl s') = unixSocketCfg (cl s)
         end).
Proof.
  unfold obtainRunner. intros H. go_unfold H.
  destruct (RunnerFunc (config (cl s))) as [f |] eqn:Ef.
  - go_run H; inversion H; subst; clear H; cbn [cl tr]; splits;
      try reflexivity; try (intros; discriminate); try (ev_done fail).
    all: intros r' cmd' E; inversion E; subst; clear E; cbn; splits;
      try reflexivity; try (apply incl_appl, incl_refl).
    all: eexists; splits; try eassumption; try reflexivity;
      try (apply in_or_app; right; left; reflexivity).
  - go_run H; inversion H; subst; clear H; cbn [cl tr]; splits;
      try reflexivity; try (intros; discriminate); try (ev_done fail).
    all: intros r' cmd' E; inversion E; subst; clear E; splits;
      try reflexivity; try apply incl_refl; try assumption.
Qed.

Ltac st_simpl :=
  cbn [config exited address runner client logger doneCtx negotiatedVersion
       negotiatedPlugins clientWaitGroup stderrWaitGroup processKilled unixSocketCfg
       Handshake VersionedPlugins ConfigCmd Reattach RunnerFunc ConfigSecure ConfigTLS
       Managed MinPort MaxPort StartTimeout Stderr SyncStdout SyncStderr ConfigLogger
       AutoMTLS SkipHostEnv ConfigUnixSocket
       cfg_setVersionedPlugins cfg_setCmd cfg_setSecure cfg_setTLS
       cl_setConfig cl_setRunner cl_setUnixSocketCfg
       cmd_setEnv cmd_setStdin Path Env exec_Command default from_option id isSet
       cl tr fst snd] in *.

(** Split on the value the call branches on first. *)
Ltac head_scrut t :=
  lazymatch t with
  | match ?x with inl _ => _ | inr _ => _ end => head_scrut_in x
  | match ?x with Some _ => _ | None => _ end => head_scrut_in x
  | if ?x then _ else _ => head_scrut_in x
  | match ?x with pair _ _ => _ end => head_scrut_in x
  | match ?x with Ok _ => _ | Err _ => _ | Panic _ => _ end => head_scrut_in x
  | match ?x with SigTimeout => _ | SigExited => _ | SigLine _ => _ end =>
      head_scrut_in x
  | ?f _ => head_scrut f
  end
with head_scrut_in x :=
  match x with
  | _ => head_scrut x
  | _ => x
  end.

Ltac go_step H :=
  match type of H with
  | ?lhs = _ => let x := head_scrut lhs in destruct x eqn:?
  end;
  go_unfold H; st_simpl.

Lemma split_last_event (t t1 : list Event) (e : Event) :
  (exists l, t1 = t ++ l /\ Forall calmEvent l) ->
  exists l0, t1 ++ [e] = t ++ l0 ++ [e] /\ Forall calmEvent l0.
Proof.
  intros (l & -> & H). exists l. split; [now rewrite app_assoc | exact H].
Qed.

Ltac in_tac :=
  solve [ simpl; left; reflexivity
        | apply in_or_app; right; in_tac
        | apply in_or_app; left; in_tac ].

Lemma Start_decompose w s res s' :
  address (cl s) = None ->
  Start w s = (res, s') ->
  ((forall a, res <> Ok a) /\ address (cl s') = None
   /\ runner (cl s') = runner (cl s)
   /\ exists l, tr s' = tr s ++ l /\ Forall calmEvent l)
  \/ exists r cmd s1,
       (exists l0, tr s1 = tr s ++ l0 ++ [EvRunnerStart (rName r) cmd]
                   /\ Forall calmEvent l0)
       /\ started w (cl s) r cmd (cl s1)
       /\ match rStart r with
          | Some err => res = Err (ErrExternal err) /\ s' = s1
          | None => awaitHandshake w r s1 = (res, s')
          end.
Proof.
  intros Ha H. unfold Start in H. go_unfold H. rewrite Ha in H.
  repeat go_step H.
  all: try match goal with
        | L : obtainRunner _ _ _ _ = _ |- _ =>
            apply obtainRunner_shape in L
              as ((lo & Ltr & Hlo) & La & Lr & Lc & Lv & Lt & Lok);
            st_simpl
        end.
  all: try (left; inversion H; subst; clear H; st_simpl; splits;
            [ intros; discriminate
            | rewrite ?La; exact Ha
            | rewrite ?Lr; reflexivity
            | rewrite ?Ltr; ev_done fail ]; fail).
  all: specialize (Lok _ _ eq_refl); destruct Lok as (Hincl & Hpath & Hrun).
  all: right.
  all: lazymatch type of H with
       | awaitHandshake _ ?r ?s1 = _ =>
           exists r;
           lazymatch s1 with context [EvRunnerStart _ ?cmd] => exists cmd, s1 end
       | (_, ?s1) = _ =>
           lazymatch s1 with
           | context [EvRunnerStart (rName ?r) ?cmd] => exists r, cmd, s1
           end
       end.
  all: split; [cbn [tr]; rewrite Ltr; apply split_last_event; ev_done fail |].
  all: split;
    [| match goal with E : rStart _ = _ |- _ => rewrite E end;
       first [exact H | inversion H; split; reflexivity] ].
  all: clear H.
  all: unfold started, checkedPath; st_simpl.
  all: destruct (SkipHostEnv (config (cl s))); cbn [negb] in *; st_simpl.
  all: splits.
  all: try reflexivity.
  all: try assumption.
  all: lazymatch goal with
       | |- VersionedPlugins _ = Some _ =>
           rewrite Lv;
           match goal with
           | E : VersionedPlugins _ = _ |- _ => rewrite E; reflexivity
           end
       | |- match ConfigSecure _ with _ => _ end =>
           match goal with
           | E : ConfigSecure _ = _ |- _ => rewrite E
           end;
           first
             [ exact I
             | match goal with
               | K : Check _ _ _ = _, B : negb ?b = false |- _ =>
                   rewrite K; destruct b; [reflexivity | discriminate B]
               end ]
       | |- if AutoMTLS _ then _ else _ =>
           match goal with
           | E : AutoMTLS _ = _ |- _ => rewrite E
           end;
           first
             [ exact Lt
             | eexists _, _, _; splits;
               [eassumption | eassumption | exact Lt | apply Hincl; in_tac] ]
       | |- match RunnerFunc _ with _ => _ end =>
           match goal with
           | E : ConfigUnixSocket _ = _ |- _ => rewrite E
           end;
           cbn [default from_option id];
           destruct (RunnerFunc (config (cl s)));
           [ exact Hrun
           | destruct Hrun as (Hn & -> & Hu); split; [exact Hn | exact Hu] ]
       end.
Qed.

(** What a call of [Start] on a client without an address comes to:
    either no runner is started, or the runner [r] is started on [cmd] and
    the call goes on from the client [c1]. *)
Lemma Start_outcome w s res s' :
  address (cl s) = None ->
  Start w s = (res, s') ->
  ((forall a, res <> Ok a) /\ address (cl s') = None
   /\ runner (cl s') = runner (cl s)
   /\ Forall calmEvent (newEvents s s'))
  \/ exists r cmd c1 l0 l1,
       newEvents s s' = l0 ++ EvRunnerStart (rName r) cmd :: l1
       /\ Forall calmEvent l0
       /\ started w (cl s) r cmd c1
       /\ runner (cl s') = Some r
       /\ unixSocketCfg (cl s') = unixSocketCfg c1
       /\ client (cl s') = client (cl s)
       /\ VersionedPlugins (config (cl s')) = VersionedPlugins (config c1)
       /\ tlsStep (ConfigTLS (config c1)) (ConfigTLS (config (cl s')))
       /\ address (cl s') = match res with Ok a => Some a | _ => None end
       /\ match rStart r with
          | Some err => res = Err (ErrExternal err) /\ l1 = []
          | None =>
              exists l,
                Forall calmEvent l
                /\ l1 = l ++ EvGo "drain stdout"
                          :: match res with
                             | Ok _ => []
                             | _ => [EvRunnerKill (rName r)]
                             end
                /\ (rFirst r = SigTimeout -> res = Err ErrStartTimeout)
                /\ (rFirst r = SigExited -> res = Err ErrExitedBeforeConnect)
                /\ (forall a, res = Ok a ->
                    exists ps,
                      In (1%Z, ps)
                         (rangeCheck w (default ∅ (VersionedPlugins (config c1))))
                      /\ negotiatedVersion (cl s') = 1%Z
                      /\ negotiatedPlugins (cl s') = Some ps)
          end.
Proof.
  intros Ha H.
  destruct (Start_decompose w s res s' Ha H)
    as [(Hno & Had & Hru & l & Hl & Hcalm)
       | (r & cmd & s1 & (l0 & Hl0 & Hc0) & Hst & Hrest)].
  - left. rewrite (newEvents_app _ _ _ Hl). auto.
  - right. exists r, cmd, (cl s1), l0.
    pose proof Hst as (Sa & Sr & Sc & _).
    destruct (rStart r) as [err |] eqn:Er.
    + destruct Hrest as [-> ->]. exists [].
      rewrite (newEvents_app _ _ _ Hl0).
      splits; auto; try reflexivity; try (left; reflexivity); try (now rewrite Sa).
    + apply awaitHandshake_shape in Hrest
        as ((l & Hl & Hc) & Hr & Hu & Hcl & Had & Hv & Ht & Hto & Hex & Hok).
      exists (l ++ EvGo "drain stdout"
                :: match res with Ok _ => [] | _ => [EvRunnerKill (rName r)] end).
      assert (Htr : tr s' = tr s ++ l0 ++ EvRunnerStart (rName r) cmd
                              :: l ++ EvGo "drain stdout"
                              :: match res with
                                 | Ok _ => []
                                 | _ => [EvRunnerKill (rName r)]
                                 end).
      { rewrite Hl, Hl0. rewrite <- !app_assoc. reflexivity. }
      rewrite (newEvents_app _ _ _ Htr).
      splits; auto; try congruence.
      * rewrite Had. destruct res; congruence.
      * exists l. splits; auto.
Qed.

Lemma calm_no_start l n c : Forall calmEvent l -> ~ In (EvRunnerStart n c) l.
Proof.
  intros H Hin. rewrite Forall_forall in H. apply list_elem_of_In in Hin.
  exact (H _ Hin).
Qed.

(** The runner that a call of [Start] has started is the only one. *)
Lemma Start_started w s res s' n c :
  address (cl s) = None ->
  Start w s = (res, s') ->
  In (EvRunnerStart n c) (newEvents s s') ->
  exists r c1 l0 l1,
    n = rName r
    /\ newEvents s s' = l0 ++ EvRunnerStart (rName r) c :: l1
    /\ Forall calmEvent l0
    /\ started w (cl s) r c c1
    /\ runner (cl s') = Some r
    /\ unixSocketCfg (cl s') = unixSocketCfg c1
    /\ tlsStep (ConfigTLS (config c1)) (ConfigTLS (config (cl s')))
    /\ match rStart r with
       | Some err => res = Err (ErrExternal err) /\ l1 = []
       | None =>
           exists l,
             Forall calmEvent l
             /\ l1 = l ++ EvGo "drain stdout"
                       :: match res with
                          | Ok _ => []
                          | _ => [EvRunnerKill (rName r)]
                          end
             /\ (rFirst r = SigTimeout -> res = Err ErrStartTimeout)
             /\ (rFirst r = SigExited -> res = Err ErrExitedBeforeConnect)
       end.
Proof.
  intros Ha H Hin.
  destruct (Start_outcome w s res s' Ha H)
    as [(_ & _ & _ & Hcalm)
       | (r & cmd & c1 & l0 & l1 & He & Hc0 & Hst & Hr & Hu & _ & _ & Ht & _ & Hrest)].
  { exfalso. exact (calm_no_start _ _ _ Hcalm Hin). }
  assert (Heq : n = rName r /\ c = cmd).
  { rewrite He in Hin. apply in_app_or in Hin as [Hin | [Hin | Hin]].
    - exfalso. exact (calm_no_start _ _ _ Hc0 Hin).
    - inversion Hin. auto.
    - exfalso. destruct (rStart r).
      + destruct Hrest as [_ ->]. exact Hin.
      + destruct Hrest as (l & Hl & -> & _).
        apply in_app_or in Hin as [Hin | [Hin | Hin]].
        * exact (calm_no_start _ _ _ Hl Hin).
        * discriminate Hin.
        * destruct res; simpl in Hin; intuition discriminate. }
  destruct Heq as [-> ->].
  exists r, c1, l0, l1. splits; auto.
  destruct (rStart r); [exact Hrest |].
  destruct Hrest as (l & Hl & E & Hto & Hex & _). exists l. auto.
Qed.

(* ===================================================================== *)
(** * [Start] on a client that has no address yet *)
(* ===================================================================== *)

(** [Start] records the address exactly when it returns one: after any
    error or panic the client still has no address, so a later [Start]
    runs again from the beginning instead of answering from the cache. *)
Theorem Start_records_address_only_on_success w s res s' :
  address (cl s) = None ->
  Start w s = (res, s') ->
  address (cl s') = match res with Ok a => Some a | _ => None end.
Proof.
  intros Ha H.
  destruct (Start_outcome w s res s' Ha H)
    as [(Hno & Had & _)
       | (r & cmd & c1 & l0 & l1 & _ & _ & _ & _ & _ & _ & _ & _ & Had & _)].
  - rewrite Had. destruct res; try reflexivity. exfalso. now apply (Hno a).
  - exact Had.
Qed.

(** When [Start] does not succeed, either it has started and killed
    nothing, or it has started one runner, which the client keeps, and
    then: if starting the runner failed, that error is returned and the
    runner is not killed; otherwise the last thing [Start] does is kill
    the runner, and it kills nothing before that. *)
Theorem Start_failure_kills_started_runner w s res s' :
  address (cl s) = None ->
  Start w s = (res, s') ->
  (forall a, res <> Ok a) ->
  Forall calmEvent (newEvents s s')
  \/ exists r cmd l0 l1,
       Forall calmEvent l0 /\ Forall calmEvent l1
       /\ runner (cl s') = Some r
       /\ match rStart r with
          | Some err =>
              res = Err (ErrExternal err)
              /\ newEvents s s' = l0 ++ [EvRunnerStart (rName r) cmd]
          | None =>
              newEvents s s'
              = l0 ++ EvRunnerStart (rName r) cmd :: l1 ++ [EvRunnerKill (rName r)]
          end.
Proof.
  intros Ha H Hno.
  destruct (Start_outcome w s res s' Ha H)
    as [(_ & _ & _ & Hcalm)
       | (r & cmd & c1 & l0 & l1 & He & Hc0 & _ & Hr & _ & _ & _ & _ & _ & Hrest)].
  { left. exact Hcalm. }
  right. destruct (rStart r) as [err |] eqn:Er.
  - destruct Hrest as [-> ->]. exists r, cmd, l0, []. rewrite Er. auto.
  - destruct Hrest as (l & Hl & -> & _).
    exists r, cmd, l0, (l ++ [EvGo "drain stdout"]). rewrite Er.
    splits; auto.
    + apply Forall_app. split; [exact Hl | repeat constructor].
    + rewrite He. destruct res as [a | e | m]; [now destruct (Hno a) | |];
        now rewrite <- app_assoc.
Qed.

(** When [Start] succeeds it has started exactly one runner, which
    started without error and printed a line, the client keeps that
    runner, and nothing was killed. *)
Theorem Start_success_keeps_runner_alive w s a s' :
  address (cl s) = None ->
  Start w s = (Ok a, s') ->
  exists r cmd l0 l1 line,
    newEvents s s' = l0 ++ EvRunnerStart (rName r) cmd :: l1
    /\ Forall calmEvent l0 /\ Forall calmEvent l1
    /\ runner (cl s') = Some r
    /\ rStart r = None
    /\ rFirst r = SigLine line.
Proof.
  intros Ha H.
  destruct (Start_outcome w s _ s' Ha H)
    as [(Hno & _)
       | (r & cmd & c1 & l0 & l1 & He & Hc0 & _ & Hr & _ & _ & _ & _ & _ & Hrest)].
  { now destruct (Hno a). }
  destruct (rStart r) as [err |] eqn:Er.
  { destruct Hrest as [Hres _]. discriminate. }
  destruct Hrest as (l & Hl & -> & Hto & Hex & _).
  destruct (rFirst r) as [| | line] eqn:Ef;
    [discriminate (Hto eq_refl) | discriminate (Hex eq_refl) |].
  exists r, cmd, l0, (l ++ [EvGo "drain stdout"]), line.
  splits; auto.
  apply Forall_app. split; [exact Hl | repeat constructor].
Qed.


(** After a successful [Start] the negotiated version is 1 and the
    negotiated plugin set is the one the configuration has under the
    version 1; so [Start] does not succeed on a configuration that has no
    plugin set for the version 1. *)
Theorem Start_negotiates_configured_set w s a s' :
  rangeOK (rangeCheck w) ->
  address (cl s) = None ->
  Start w s = (Ok a, s') ->
  exists ps,
    default ∅ (VersionedPlugins (config (cl s))) !! 1%Z = Some ps
    /\ NegotiatedVersion (cl s') = 1%Z
    /\ negotiatedPlugins (cl s') = Some ps
    /\ VersionedPlugins (config (cl s'))
       = Some (default ∅ (VersionedPlugins (config (cl s)))).
Proof.
  intros Hok Ha H.
  destruct (Start_outcome w s _ s' Ha H)
    as [(Hno & _)
       | (r & cmd & c1 & l0 & l1 & _ & _ & Hst & _ & _ & _ & Hv & _ & _ & Hrest)].
  { now destruct (Hno a). }
  destruct Hst as (_ & _ & _ & Sv & _).
  destruct (rStart r) as [err |].
  { destruct Hrest as [Hres _]. discriminate. }
  destruct Hrest as (l & _ & _ & _ & _ & Hneg).
  destruct (Hneg a eq_refl) as (ps & Hin & Hnv & Hnp).
  exists ps. rewrite Sv in Hin. cbn in Hin.
  apply list_elem_of_In in Hin. rewrite (Hok _) in Hin.
  apply elem_of_map_to_list in Hin.
  splits; auto. now rewrite Hv.
Qed.

(** With [AutoMTLS], a runner is only started after a certificate was
    generated and parsed; the command it is started on carries the
    certificate in PLUGIN_CLIENT_CERT; and whatever TLS configuration the
    caller had given is replaced: the client ends with a configuration
    that holds this certificate alone, requires and verifies client
    certificates, has TLS 1.2 as its minimum and the server name
    localhost, and whose two CA pools are the same. *)
Theorem Start_AutoMTLS_replaces_TLSConfig w s res s' n cmd :
  address (cl s) = None ->
  AutoMTLS (config (cl s)) = true ->
  Start w s = (res, s') ->
  In (EvRunnerStart n cmd) (newEvents s s') ->
  exists certPEM keyPEM cert t,
    generateCert w = inr (certPEM, keyPEM)
    /\ X509KeyPair w certPEM keyPEM = inr cert
    /\ In ("PLUGIN_CLIENT_CERT=" +:+ certPEM) (Env cmd)
    /\ ConfigTLS (config (cl s')) = Some t
    /\ Certificates t = [cert]
    /\ ClientAuth t = RequireAndVerifyClientCert
    /\ MinVersion t = VersionTLS12
    /\ ServerName t = "localhost"
    /\ RootCAs t = ClientCAs t.
Proof.
  intros Ha Hm H Hin.
  destruct (Start_started w s res s' n cmd Ha H Hin)
    as (r & c1 & l0 & l1 & _ & _ & _ & Hst & _ & _ & Ht & _).
  destruct Hst as (_ & _ & _ & _ & _ & _ & Hs & _). rewrite Hm in Hs.
  destruct Hs as (certPEM & keyPEM & cert & Hg & Hk & Hc & He).
  rewrite Hc in Ht.
  destruct Ht as [Ht | (t0 & x & E & Ht)].
  - exists certPEM, keyPEM, cert, (autoMTLSConfig cert). splits; auto.
  - inversion E; subst t0.
    exists certPEM, keyPEM, cert, (tls_setCAs [x] (autoMTLSConfig cert)).
    splits; auto.
Qed.

(** A runner is started only on the path that was given to the integrity
    check, and, when a secure configuration is set, only after [Check]
    answered [true] without an error. *)
Theorem Start_runs_only_checked_binary w s res s' n cmd :
  address (cl s) = None ->
  Start w s = (res, s') ->
  In (EvRunnerStart n cmd) (newEvents s s') ->
  Path cmd = checkedPath (cl s)
  /\ forall sc, ConfigSecure (config (cl s)) = Some sc ->
                fst (Check w sc (Path cmd)) = (true, None).
Proof.
  intros Ha H Hin.
  destruct (Start_started w s res s' n cmd Ha H Hin)
    as (r & c1 & l0 & l1 & _ & _ & _ & Hst & _).
  destruct Hst as (_ & _ & _ & _ & Hp & Hs & _).
  split; [exact Hp |]. intros sc E. rewrite E in Hs. now rewrite Hp.
Qed.

(** The directory that [Start] makes for a runner of [RunnerFunc] is the
    one [Kill] removes afterwards: when [Start] has started such a runner,
    there is a directory that [os.MkdirTemp] returned for the configured
    temporary directory, the runner was made for that directory and its
    command names it under [EnvUnixSocketDir]; and when the runner has an
    identity, a [Kill] that follows removes the directory (unless its name
    is empty) and removes nothing else. *)
Theorem Kill_removes_socket_dir_of_Start w s res s' n cmd runnerFunc :
  address (cl s) = None ->
  RunnerFunc (config (cl s)) = Some runnerFunc ->
  Start w s = (res, s') ->
  In (EvRunnerStart n cmd) (newEvents s s') ->
  exists r dir,
    runner (cl s') = Some r
    /\ MkdirTemp w (TempDir (default (unixSocketCfg (cl s))
                                     (ConfigUnixSocket (config (cl s)))))
         "plugin-dir" = inr dir
    /\ runnerFunc cmd dir = inr r
    /\ In (EnvUnixSocketDir +:+ "=" +:+ dir) (Env cmd)
    /\ (rID r <> EmptyString -> dir <> EmptyString ->
        forall w', In (EvRemoveAll dir) (newEvents s' (snd (Kill w' s')))
                   /\ forall d, In (EvRemoveAll d) (newEvents s' (snd (Kill w' s')))
                                -> d = dir).
Proof.
  intros Ha Hf H Hin.
  destruct (Start_started w s res s' n cmd Ha H Hin)
    as (r & c1 & l0 & l1 & _ & _ & _ & Hst & Hr & Hu & _).
  destruct Hst as (_ & _ & _ & _ & _ & _ & _ & Hs). rewrite Hf in Hs.
  destruct Hs as (dir & Hmk & Hd & He & Hrf).
  exists r, dir. splits; auto.
  intros Hid Hdir w'.
  destruct (Kill_run w' s' r _ _ Hr Hid (surjective_pairing (Kill w' s')))
    as (_ & Htr & _).
  rewrite (newEvents_app _ _ _ Htr). rewrite Hu, Hd.
  unfold cleanupEvents.
  destruct (String.eqb_spec dir EmptyString) as [E | _]; [contradiction |].
  split.
  - apply in_or_app. right. apply in_or_app. right. right. left. reflexivity.
  - intros d Hin'.
    apply in_app_or in Hin' as [Hin' | Hin'].
    { exfalso. unfold closeAttempt in Hin'.
      destruct (address (cl s')); [| exact Hin'].
      apply in_app_or in Hin' as [Hin' | Hin'].
      - destruct (client (cl s')); simpl in Hin'; intuition discriminate.
      - destruct (dispensed w' (cl s')) as [e | p]; simpl in Hin';
          [intuition discriminate |].
        destruct Hin' as [Hin' | Hin']; [discriminate |].
        destruct (cpClose p); simpl in Hin'; intuition discriminate. }
    apply in_app_or in Hin' as [Hin' | Hin'].
    { exfalso. unfold afterClose, forceKillEvents in Hin'.
      destruct (graceful w' (cl s')); simpl in Hin';
        try destruct (rExitsWithin r graceWindow); simpl in Hin';
        destruct (rKill r); simpl in Hin'; intuition discriminate. }
    simpl in Hin'. destruct Hin' as [Hin' | [Hin' | []]]; [discriminate |].
    now inversion Hin'.
Qed.

(** ** Sample runs *)

Lemma timeout_Start_sample :
  fst (Start RunSample.timeoutWorld StartSample.s0) = Err ErrStartTimeout.
Proof. vm_compute. reflexivity. Qed.


Lemma mtls_Start_started :
  In (EvRunnerStart "plugin" RunSample.mtlsStarted)
     (newEvents (Sample.fresh RunSample.mtlsConfig)
        (snd (Start StartSample.w (Sample.fresh RunSample.mtlsConfig)))).
Proof. vm_compute. right. left. reflexivity. Qed.

Lemma func_Start_started :
  In (EvRunnerStart "plugin" RunSample.funcStarted)
     (newEvents (Sample.fresh RunSample.funcConfig)
        (snd (Start StartSample.w (Sample.fresh RunSample.funcConfig)))).
Proof. vm_compute. right. right. left. reflexivity. Qed.

Lemma Check_true_only_on_equal_sum_witness :
  exists h f,
    SecureHash CheckSample.sc = Some h
    /\ osOpen CheckSample.w "./plugin" = inr f /\ ferr f = None
    /\ Checksum CheckSample.sc <> []
    /\ Hash_Sum (Hash_Write h (concat (fchunks f))) [] = Checksum CheckSample.sc.
Proof.
  apply (proj2 (proj2 (Check_true_only_on_equal_sum CheckSample.w CheckSample.sc
                         "./plugin"))).
  vm_compute. reflexivity.
Defined.

Lemma NewClient_establishes_defaults_witness :
  StartTimeout (config (fst (NewClient Sample.noGlobals
                               (cfg_setStartTimeout 5 (Sample.sampleConfig Sample.v1)))))
  = 5%Z.
Proof.
  destruct (NewClient_establishes_defaults Sample.noGlobals
              (cfg_setStartTimeout 5 (Sample.sampleConfig Sample.v1)))
    as (_ & _ & _ & _ & _ & _ & _ & H & _).
  apply H. vm_compute. discriminate.
Defined.

Lemma Start_records_address_only_on_success_witness :
  address (cl (snd (Start RunSample.timeoutWorld StartSample.s0))) = None.
Proof.
  pose proof (Start_records_address_only_on_success RunSample.timeoutWorld
                StartSample.s0 _ _ eq_refl (surjective_pairing _)) as H.
  rewrite timeout_Start_sample in H. exact H.
Defined.

Lemma Start_failure_kills_started_runner_witness :
  Forall calmEvent
    (newEvents StartSample.s0 (snd (Start RunSample.timeoutWorld StartSample.s0)))
  \/ exists r cmd l0 l1,
       Forall calmEvent l0 /\ Forall calmEvent l1
       /\ runner (cl (snd (Start RunSample.timeoutWorld StartSample.s0))) = Some r
       /\ match rStart r with
          | Some err =>
              fst (Start RunSample.timeoutWorld StartSample.s0) = Err (ErrExternal err)
              /\ newEvents StartSample.s0
                   (snd (Start RunSample.timeoutWorld StartSample.s0))
                 = l0 ++ [EvRunnerStart (rName r) cmd]
          | None =>
              newEvents StartSample.s0
                (snd (Start RunSample.timeoutWorld StartSample.s0))
              = l0 ++ EvRunnerStart (rName r) cmd :: l1 ++ [EvRunnerKill (rName r)]
          end.
Proof.
  apply (Start_failure_kills_started_runner RunSample.timeoutWorld StartSample.s0 _ _
           eq_refl (surjective_pairing _)).
  intros a. rewrite timeout_Start_sample. discriminate.
Defined.

Lemma Start_success_keeps_runner_alive_witness :
  exists r cmd l0 l1 line,
    newEvents StartSample.s0 StartSample.s1 = l0 ++ EvRunnerStart (rName r) cmd :: l1
    /\ Forall calmEvent l0 /\ Forall calmEvent l1
    /\ runner (cl StartSample.s1) = Some r
    /\ rStart r = None
    /\ rFirst r = SigLine line.
Proof.
  exact (Start_success_keeps_runner_alive StartSample.w StartSample.s0 StartSample.addr
           StartSample.s1 eq_refl first_Start_sample).
Defined.


Lemma Start_negotiates_configured_set_witness :
  exists ps,
    default ∅ (VersionedPlugins (config (cl StartSample.s0))) !! 1%Z = Some ps
    /\ NegotiatedVersion (cl StartSample.s1) = 1%Z
    /\ negotiatedPlugins (cl StartSample.s1) = Some ps
    /\ VersionedPlugins (config (cl StartSample.s1))
       = Some (default ∅ (VersionedPlugins (config (cl StartSample.s0)))).
Proof.
  assert (Hr : rangeOK (rangeCheck StartSample.w)) by (intros m; reflexivity).
  exact (Start_negotiates_configured_set StartSample.w StartSample.s0 StartSample.addr
           StartSample.s1 Hr eq_refl first_Start_sample).
Defined.

Lemma Start_AutoMTLS_replaces_TLSConfig_witness :
  exists certPEM keyPEM cert t,
    generateCert StartSample.w = inr (certPEM, keyPEM)
    /\ X509KeyPair StartSample.w certPEM keyPEM = inr cert
    /\ In ("PLUGIN_CLIENT_CERT=" +:+ certPEM) (Env RunSample.mtlsStarted)
    /\ ConfigTLS (config (cl (snd (Start StartSample.w
                                     (Sample.fresh RunSample.mtlsConfig))))) = Some t
    /\ Certificates t = [cert]
    /\ ClientAuth t = RequireAndVerifyClientCert
    /\ MinVersion t = VersionTLS12
    /\ ServerName t = "localhost"
    /\ RootCAs t = ClientCAs t.
Proof.
  exact (Start_AutoMTLS_replaces_TLSConfig StartSample.w
           (Sample.fresh RunSample.mtlsConfig) _ _ "plugin" RunSample.mtlsStarted
           eq_refl eq_refl (surjective_pairing _) mtls_Start_started).
Defined.

Lemma Start_runs_only_checked_binary_witness :
  Path RunSample.mtlsStarted = "./plugin"
  /\ fst (Check StartSample.w CheckSample.sc (Path RunSample.mtlsStarted)) = (true, None).
Proof.
  destruct (Start_runs_only_checked_binary StartSample.w
              (Sample.fresh RunSample.mtlsConfig) _ _ "plugin" RunSample.mtlsStarted
              eq_refl (surjective_pairing _) mtls_Start_started) as [Hp Hc].
  split; [exact Hp |]. apply Hc. reflexivity.
Defined.

Lemma Kill_removes_socket_dir_of_Start_witness :
  exists r dir,
    runner (cl (snd (Start StartSample.w (Sample.fresh RunSample.funcConfig)))) = Some r
    /\ MkdirTemp StartSample.w
         (TempDir (default (unixSocketCfg (cl (Sample.fresh RunSample.funcConfig)))
                     (ConfigUnixSocket (config (cl (Sample.fresh RunSample.funcConfig))))))
         "plugin-dir" = inr dir
    /\ RunSample.runnerFunc RunSample.funcStarted dir = inr r
    /\ In (EnvUnixSocketDir +:+ "=" +:+ dir) (Env RunSample.funcStarted)
    /\ (rID r <> EmptyString -> dir <> EmptyString ->
        forall w',
          In (EvRemoveAll dir)
             (newEvents (snd (Start StartSample.w (Sample.fresh RunSample.funcConfig)))
                (snd (Kill w' (snd (Start StartSample.w
                                      (Sample.fresh RunSample.funcConfig))))))
          /\ forall d,
               In (EvRemoveAll d)
                  (newEvents (snd (Start StartSample.w (Sample.fresh RunSample.funcConfig)))
                     (snd (Kill w' (snd (Start StartSample.w
                                           (Sample.fresh RunSample.funcConfig))))))
               -> d = dir).
Proof.
  exact (Kill_removes_socket_dir_of_Start StartSample.w
           (Sample.fresh RunSample.funcConfig) _ _ "plugin" RunSample.funcStarted
           RunSample.runnerFunc eq_refl eq_refl (surjective_pairing _)
           func_Start_started).
Defined.
